(** * mcp-Rally: the field-name transformer and the error classifier

    A shallow embedding of [DataTransformer] (src/data/DataTransformer.ts) and
    of [ErrorHandler] / [ErrorTypes] (src/errors), with the properties of the
    specification stated and settled over it; then of [SecurityManager]
    (src/security) and of the tables and query parameters of [RallyClient]
    (src/rally), with further properties of all four.

    Strings are sequences of 8-bit characters.  Case conversion and the
    character classes act on the letters A-Z and a-z, which is what
    [toLowerCase], [toUpperCase] and the regular expressions of the source
    do on code units below 128. *)

From Stdlib Require Import Strings.String Strings.Ascii Lists.List Bool.Bool.
From Stdlib Require Import Arith.Arith ZArith.ZArith micromega.Lia.
From Stdlib Require Import Numbers.DecimalString.
From Stdlib Require Import Numbers.DecimalZ Sorting.Permutation Sorting.Sorted.
From Stdlib Require QArith.QArith_base.
Import ListNotations.

Set Warnings "-register-all".

Open Scope string_scope.
Open Scope bool_scope.

(* ================================================================== *)
(** ** The string operations of the host language used by the code *)
(* ================================================================== *)

Module Js.

(** [A-Z] *)
Definition isUpper (c : ascii) : bool :=
  let n := nat_of_ascii c in (65 <=? n)%nat && (n <=? 90)%nat.

(** [a-z] *)
Definition isLower (c : ascii) : bool :=
  let n := nat_of_ascii c in (97 <=? n)%nat && (n <=? 122)%nat.

(** [0-9] *)
Definition isDigit (c : ascii) : bool :=
  let n := nat_of_ascii c in (48 <=? n)%nat && (n <=? 57)%nat.

Definition charToLower (c : ascii) : ascii :=
  if isUpper c then ascii_of_nat (nat_of_ascii c + 32) else c.

Definition charToUpper (c : ascii) : ascii :=
  if isLower c then ascii_of_nat (nat_of_ascii c - 32) else c.

(** [str.toLowerCase()] on ASCII text.  (Outside ASCII the engine also
    lowers the other letters of Unicode.) *)
Fixpoint toLowerCase (s : string) : string :=
  match s with
  | "" => ""
  | String c r => String (charToLower c) (toLowerCase r)
  end.

(** [str.toUpperCase()] on ASCII text.  (Outside ASCII the engine also
    raises the other letters of Unicode, some to several characters, as
    the sharp s to SS.) *)
Fixpoint toUpperCase (s : string) : string :=
  match s with
  | "" => ""
  | String c r => String (charToUpper c) (toUpperCase r)
  end.

(** [str.startsWith(p)] *)
Fixpoint startsWith (p s : string) : bool :=
  match p with
  | "" => true
  | String a p' =>
      match s with
      | "" => false
      | String b s' => (a =? b)%char && startsWith p' s'
      end
  end.

(** [str.substring(n)]: the characters from index [n] on. *)
Fixpoint substringFrom (n : nat) (s : string) : string :=
  match n, s with
  | 0, _ => s
  | S _, "" => ""
  | S n', String _ r => substringFrom n' r
  end.

(** [str.substring(0, n)]: the first [n] characters. *)
Fixpoint substringTo (n : nat) (s : string) : string :=
  match n, s with
  | 0, _ => ""
  | S _, "" => ""
  | S n', String c r => String c (substringTo n' r)
  end.

(** [str.includes(p)] *)
Fixpoint includes (p s : string) : bool :=
  startsWith p s
  || match s with
     | "" => false
     | String _ r => includes p r
     end.

(** [str.charAt(0)], the empty string when [str] is empty. *)
Definition charAt0 (s : string) : string :=
  match s with
  | "" => ""
  | String c _ => String c ""
  end.

(** [n.toString()] for an integral number (of less than 22 digits: from
    there on the engine writes an exponent). *)
Definition numberToString (n : Z) : string :=
  NilEmpty.string_of_int (Z.to_int n).

End Js.

(* ================================================================== *)
(** ** JSON-like values: the records the transformer walks *)
(* ================================================================== *)

(** A record is a primitive, an array or an object.  An object is the list
    of its own enumerable properties in the order [Object.entries] yields
    them.  Numbers are passed through untouched by the code, so only their
    identity matters; they are integers here. *)
Inductive JsValue : Type :=
| JNull
| JUndefined
| JNum (n : Z)
| JStr (s : string)
| JBool (b : bool)
| JArr (items : list JsValue)
| JObj (entries : list (string * JsValue)).

(** [typeof v === 'object' && v !== null] *)
Definition isObjectLike (v : JsValue) : bool :=
  match v with
  | JArr _ | JObj _ => true
  | _ => false
  end.

(** Induction on records, through arrays and objects. *)

Section RecordInduction.
Variable P : JsValue -> Prop.
Hypothesis case_null : P JNull.
Hypothesis case_undefined : P JUndefined.
Hypothesis case_num : forall n, P (JNum n).
Hypothesis case_str : forall s, P (JStr s).
Hypothesis case_bool : forall b, P (JBool b).
Hypothesis case_arr : forall items, Forall P items -> P (JArr items).
Hypothesis case_obj :
  forall entries, Forall (fun kv => P (snd kv)) entries -> P (JObj entries).

Fixpoint record_ind (r : JsValue) : P r :=
  match r with
  | JNull => case_null
  | JUndefined => case_undefined
  | JNum n => case_num n
  | JStr s => case_str s
  | JBool b => case_bool b
  | JArr items =>
      case_arr items
        ((fix each (l : list JsValue) : Forall P l :=
            match l with
            | [] => Forall_nil P
            | x :: l' => Forall_cons x (record_ind x) (each l')
            end) items)
  | JObj entries =>
      case_obj entries
        ((fix each (l : list (string * JsValue))
              : Forall (fun kv => P (snd kv)) l :=
            match l with
            | [] => Forall_nil _
            | kv :: l' => Forall_cons kv (record_ind (snd kv)) (each l')
            end) entries)
  end.
End RecordInduction.

(** [obj[key] = value] on the entries of an ordinary object: an existing
    property keeps its place and takes the new value, a new one is added
    last.  Writing to ["__proto__"] goes to the prototype accessor and
    creates no own property.  (The engine lists keys that are array
    indices ahead of the others; the properties below read objects as
    mappings and do not depend on that order.) *)
Fixpoint assignEntry {V : Type} (key : string) (value : V)
    (entries : list (string * V)) : list (string * V) :=
  match entries with
  | [] => [(key, value)]
  | (k, v) :: rest =>
      if (k =? key)%string then (k, value) :: rest
      else (k, v) :: assignEntry key value rest
  end.

Definition setProperty {V : Type} (entries : list (string * V))
    (key : string) (value : V) : list (string * V) :=
  if (key =? "__proto__")%string then entries
  else assignEntry key value entries.

(* ================================================================== *)
(** ** DataTransformer *)
(* ================================================================== *)

Module DataTransformer.
Import Js.

(** *** The two boundary rules of [camelToKebab] *)

(** Length of the longest prefix of [s] in [A-Z]: what the greedy
    [[A-Z]+] takes first. *)
Fixpoint upperRun (s : string) : nat :=
  match s with
  | String c r => if isUpper c then S (upperRun r) else 0
  | "" => 0
  end.

(** [/([A-Z]+)([A-Z][a-z])/] tried at the start of [s] with group 1 of
    length [k], then [k-1], ... down to 1 (backtracking of the greedy
    [+]).  The result is (group 1, group 2, text after the match). *)
Fixpoint acronymBacktrack (k : nat) (s : string)
    : option (string * string * string) :=
  match k with
  | 0 => None
  | S k' =>
      match substringFrom k s with
      | String a (String b rest) =>
          if isUpper a && isLower b
          then Some (substringTo k s, String a (String b ""), rest)
          else acronymBacktrack k' s
      | _ => acronymBacktrack k' s
      end
  end.

Definition matchAcronym (s : string) : option (string * string * string) :=
  acronymBacktrack (upperRun s) s.

(** [.replace(/([A-Z]+)([A-Z][a-z])/g, '$1-$2')]: leftmost match first,
    the search resumes after each match.  [fuel] bounds the number of
    steps; every step consumes a character. *)
Fixpoint replaceAcronymFrom (fuel : nat) (s : string) : string :=
  match fuel with
  | 0 => s
  | S fuel' =>
      match matchAcronym s with
      | Some (g1, g2, rest) => g1 ++ "-" ++ g2 ++ replaceAcronymFrom fuel' rest
      | None =>
          match s with
          | "" => ""
          | String c r => String c (replaceAcronymFrom fuel' r)
          end
      end
  end.

Definition replaceAcronym (s : string) : string :=
  replaceAcronymFrom (String.length s) s.

(** [.replace(/([a-z0-9])([A-Z])/g, '$1-$2')] *)
Fixpoint replaceBoundary (s : string) : string :=
  match s with
  | String a ((String b rest) as t) =>
      if (isLower a || isDigit a) && isUpper b
      then String a (String "-" (String b (replaceBoundary rest)))
      else String a (replaceBoundary t)
  | _ => s
  end.

(** [camelToKebab]: rule (1), then rule (2), then lower case. *)
Definition camelToKebab (str : string) : string :=
  toLowerCase (replaceBoundary (replaceAcronym str)).

(** [.replace(/-([a-z])/g, (_, letter) => letter.toUpperCase())] *)
Fixpoint replaceDashLetter (s : string) : string :=
  match s with
  | String a ((String b rest) as t) =>
      if (a =? "-")%char && isLower b
      then String (charToUpper b) (replaceDashLetter rest)
      else String a (replaceDashLetter t)
  | _ => s
  end.

Definition kebabToCamel (str : string) : string :=
  replaceDashLetter (toLowerCase str).

Definition kebabToPascal (str : string) : string :=
  let camelCase := kebabToCamel str in
  toUpperCase (charAt0 camelCase) ++ substringFrom 1 camelCase.

(** *** The table of irregular names *)

Definition specialCases : list (string * string) :=
  [ ("formatted-id", "FormattedID");
    ("object-id", "ObjectID");
    ("ref-object-uuid", "refObjectUUID");
    ("ref-object-name", "refObjectName");
    ("ref", "ref");
    ("type", "type");
    ("plan-estimate", "PlanEstimate");
    ("schedule-state", "ScheduleState");
    ("last-update-date", "LastUpdateDate");
    ("creation-date", "CreationDate");
    ("found-in-build", "FoundInBuild");
    ("fixed-in-build", "FixedInBuild");
    ("work-product", "WorkProduct");
    ("to-do", "ToDo");
    ("todo", "ToDo");
    ("api-integration", "APIIntegration");
    ("apiintegration", "APIIntegration");
    ("custom-priority", "CustomPriority");
    ("business-value", "BusinessValue");
    ("my-custom-field", "MyCustomField") ].

(** The table is an object literal, so [specialCases[field]] also finds
    the members every object inherits from [Object.prototype].  They are
    truthy, hence returned by [kebabToRallySpecialCase]; the caller uses
    the result as a string (template literal, property key), which for a
    built-in function is its source text and for the prototype object is
    ["[object Object]"]. *)
Definition inheritedFunctions : list string :=
  [ "constructor"; "hasOwnProperty"; "isPrototypeOf"; "propertyIsEnumerable";
    "toLocaleString"; "toString"; "valueOf";
    "__defineGetter__"; "__defineSetter__";
    "__lookupGetter__"; "__lookupSetter__" ].

Definition constructorName (member : string) : string :=
  if (member =? "constructor")%string then "Object" else member.

Definition inheritedMember (field : string) : option string :=
  if (field =? "__proto__")%string then Some "[object Object]"
  else if existsb (String.eqb field) inheritedFunctions
       then Some ("function " ++ constructorName field ++ "() { [native code] }")
       else None.

Fixpoint ownEntry (field : string) (table : list (string * string))
    : option string :=
  match table with
  | [] => None
  | (k, v) :: rest => if (k =? field)%string then Some v else ownEntry field rest
  end.

(** [specialCases[field]], as a string when it is defined. *)
Definition specialCaseLookup (field : string) : option string :=
  match ownEntry field specialCases with
  | Some v => Some v
  | None => inheritedMember field
  end.

Definition kebabToRallySpecialCase (field : string) : string :=
  match specialCaseLookup field with
  | Some specialCase => specialCase
  | None => kebabToPascal field
  end.

(** *** Field names *)

Definition rallyFieldToMcp (field : string) : string :=
  if startsWith "_" field then
    "metadata-" ++ camelToKebab (substringFrom 1 field)
  else if startsWith "c_" field then
    "custom-" ++ camelToKebab (substringFrom 2 field)
  else camelToKebab field.

Definition mcpFieldToRally (field : string) : string :=
  if startsWith "metadata-" field then
    "_" ++ kebabToRallySpecialCase (substringFrom 9 field)
  else if startsWith "custom-" field then
    "c_" ++ kebabToRallySpecialCase (substringFrom 7 field)
  else kebabToRallySpecialCase field.

(** *** Records *)

Fixpoint rallyToMcp (data : JsValue) : JsValue :=
  match data with
  | JArr items => JArr (map rallyToMcp items)
  | JObj entries =>
      JObj (fold_left
              (fun transformed kv =>
                 let transformedKey := rallyFieldToMcp (fst kv) in
                 let value := snd kv in
                 let transformedValue :=
                   if isObjectLike value then rallyToMcp value else value in
                 setProperty transformed transformedKey transformedValue)
              entries [])
  | _ => data
  end.

Fixpoint mcpToRally (data : JsValue) : JsValue :=
  match data with
  | JArr items => JArr (map mcpToRally items)
  | JObj entries =>
      JObj (fold_left
              (fun transformed kv =>
                 let transformedKey := mcpFieldToRally (fst kv) in
                 let value := snd kv in
                 let transformedValue :=
                   if isObjectLike value then mcpToRally value else value in
                 setProperty transformed transformedKey transformedValue)
              entries [])
  | _ => data
  end.

(** *** The shallow variant *)

(** [transformFieldNames]: the names of one object, its values as they
    are. *)
Definition transformFieldNames (data : list (string * JsValue))
    : list (string * JsValue) :=
  fold_left
    (fun transformed kv =>
       let transformedKey := rallyFieldToMcp (fst kv) in
       setProperty transformed transformedKey (snd kv))
    data [].

(** *** The table of known fields *)

Inductive FieldType : Type := standard | custom | metadata.

Record FieldMapping : Type := mkFieldMapping {
  rallyField : string;
  mcpField : string;
  fieldType : FieldType
}.

Definition getFieldMappings : list (string * FieldMapping) :=
  [ ("FormattedID", mkFieldMapping "FormattedID" "formatted-id" standard);
    ("Name", mkFieldMapping "Name" "name" standard);
    ("Description", mkFieldMapping "Description" "description" standard);
    ("PlanEstimate", mkFieldMapping "PlanEstimate" "plan-estimate" standard);
    ("ScheduleState",
       mkFieldMapping "ScheduleState" "schedule-state" standard);
    ("Owner", mkFieldMapping "Owner" "owner" standard);
    ("Project", mkFieldMapping "Project" "project" standard);
    ("Iteration", mkFieldMapping "Iteration" "iteration" standard);
    ("Severity", mkFieldMapping "Severity" "severity" standard);
    ("State", mkFieldMapping "State" "state" standard);
    ("FoundInBuild", mkFieldMapping "FoundInBuild" "found-in-build" standard);
    ("FixedInBuild", mkFieldMapping "FixedInBuild" "fixed-in-build" standard);
    ("Resolution", mkFieldMapping "Resolution" "resolution" standard);
    ("WorkProduct", mkFieldMapping "WorkProduct" "work-product" standard);
    ("Estimate", mkFieldMapping "Estimate" "estimate" standard);
    ("ToDo", mkFieldMapping "ToDo" "todo" standard);
    ("Actuals", mkFieldMapping "Actuals" "actuals" standard);
    ("_ref", mkFieldMapping "_ref" "metadata-ref" metadata);
    ("_refObjectName",
       mkFieldMapping "_refObjectName" "metadata-ref-object-name" metadata);
    ("_type", mkFieldMapping "_type" "metadata-type" metadata);
    ("_refObjectUUID",
       mkFieldMapping "_refObjectUUID" "metadata-ref-object-uuid" metadata);
    ("ObjectID", mkFieldMapping "ObjectID" "object-id" standard);
    ("CreationDate", mkFieldMapping "CreationDate" "creation-date" standard);
    ("LastUpdateDate",
       mkFieldMapping "LastUpdateDate" "last-update-date" standard) ].

End DataTransformer.

(* ================================================================== *)
(** ** The transformer on a store of mutable cells *)
(* ================================================================== *)

(** Arrays and objects of the host language are cells of a store, and a
    value of array or object kind is a reference to its cell.  The walk
    below is [rallyToMcp] / [mcpToRally] with the allocations and the
    writes of the source spelled out: [map] fills a new array, the object
    branch creates [transformed = {}] and sets its properties one by one.
    [fuel] bounds the depth of the recursion. *)
Module Store.
Import Js.

Definition Address : Type := nat.

Inductive Value : Type :=
| VNull
| VUndefined
| VNum (n : Z)
| VStr (s : string)
| VBool (b : bool)
| VRef (a : Address).

Inductive Cell : Type :=
| ArrayCell (items : list Value)
| ObjectCell (entries : list (string * Value)).

Definition Heap : Type := list Cell.

Definition allocate (h : Heap) (c : Cell) : Address * Heap :=
  (List.length h, (h ++ [c])%list).

Fixpoint store (h : Heap) (a : Address) (c : Cell) : Heap :=
  match h, a with
  | [], _ => []
  | _ :: rest, 0 => c :: rest
  | x :: rest, S a' => x :: store rest a' c
  end.

(** [target[key] = value] *)
Definition assign (h : Heap) (target : Address) (key : string)
    (value : Value) : option Heap :=
  match nth_error h target with
  | Some (ObjectCell entries) =>
      Some (store h target (ObjectCell (setProperty entries key value)))
  | _ => None
  end.

(** [typeof v === 'object' && v !== null] *)
Definition isReference (v : Value) : bool :=
  match v with
  | VRef _ => true
  | _ => false
  end.

Section Walk.
Variable fieldName : string -> string.
Variable recur : Value -> Heap -> option (Value * Heap).

(** [data.map(item => recur(item))], without the final allocation *)
Fixpoint mapItems (items : list Value) (h : Heap)
    : option (list Value * Heap) :=
  match items with
  | [] => Some ([], h)
  | item :: rest =>
      match recur item h with
      | Some (v, h1) =>
          match mapItems rest h1 with
          | Some (vs, h2) => Some (v :: vs, h2)
          | None => None
          end
      | None => None
      end
  end.

(** The loop over [Object.entries(obj)] *)
Fixpoint copyEntries (target : Address) (entries : list (string * Value))
    (h : Heap) : option Heap :=
  match entries with
  | [] => Some h
  | (key, value) :: rest =>
      let transformedKey := fieldName key in
      match (if isReference value then recur value h
             else Some (value, h)) with
      | Some (transformedValue, h1) =>
          match assign h1 target transformedKey transformedValue with
          | Some h2 => copyEntries target rest h2
          | None => None
          end
      | None => None
      end
  end.
End Walk.

(** The walk of [rallyToMcp] and [mcpToRally].  [fuel] is what is left
    of the call stack of the engine: the number of calls of the walk
    that can still be nested (a call made through [map] counted with the
    frames of [map] and of its callback).  The code has no guard on the
    depth: a call made when nothing is left throws [RangeError], and
    nothing catches it.  A throw is [None]; in a store that holds the
    record nothing else throws. *)
Fixpoint transform (fieldName : string -> string) (fuel : nat)
    (data : Value) (h : Heap) : option (Value * Heap) :=
  match fuel with
  | 0 => None
  | S fuel' =>
      match data with
      | VRef a =>
          match nth_error h a with
          | Some (ArrayCell items) =>
              match mapItems (transform fieldName fuel') items h with
              | Some (items', h1) =>
                  let (a', h2) := allocate h1 (ArrayCell items') in
                  Some (VRef a', h2)
              | None => None
              end
          | Some (ObjectCell entries) =>
              let (target, h0) := allocate h (ObjectCell []) in
              match copyEntries fieldName (transform fieldName fuel')
                      target entries h0 with
              | Some h1 => Some (VRef target, h1)
              | None => None
              end
          | None => None
          end
      | _ => Some (data, h)
      end
  end.

Definition rallyToMcp : nat -> Value -> Heap -> option (Value * Heap) :=
  transform DataTransformer.rallyFieldToMcp.

Definition mcpToRally : nat -> Value -> Heap -> option (Value * Heap) :=
  transform DataTransformer.mcpFieldToRally.

(** *** Records held in a store *)

(** [representsIn P h v r]: in [h] the value [v] is the record [r], and
    every cell read to see it has an address in [P]. *)
Inductive representsIn (P : Address -> Prop) (h : Heap)
    : Value -> JsValue -> Prop :=
| rep_null : representsIn P h VNull JNull
| rep_undefined : representsIn P h VUndefined JUndefined
| rep_num n : representsIn P h (VNum n) (JNum n)
| rep_str s : representsIn P h (VStr s) (JStr s)
| rep_bool b : representsIn P h (VBool b) (JBool b)
| rep_arr a vs rs :
    P a ->
    nth_error h a = Some (ArrayCell vs) ->
    Forall2 (representsIn P h) vs rs ->
    representsIn P h (VRef a) (JArr rs)
| rep_obj a ves es :
    P a ->
    nth_error h a = Some (ObjectCell ves) ->
    Forall2 (fun ve e => fst ve = fst e /\ representsIn P h (snd ve) (snd e))
            ves es ->
    representsIn P h (VRef a) (JObj es).

Definition represents : Heap -> Value -> JsValue -> Prop :=
  representsIn (fun _ => True).

(** Every cell of [h] is still there, unchanged, in [h']. *)
Definition preserved (h h' : Heap) : Prop :=
  forall a c, nth_error h a = Some c -> nth_error h' a = Some c.

(** Levels of nesting. *)
Fixpoint depth (r : JsValue) : nat :=
  match r with
  | JArr items => S (fold_right (fun x m => Nat.max (depth x) m) 0 items)
  | JObj entries =>
      S (fold_right (fun kv m => Nat.max (depth (snd kv)) m) 0 entries)
  | _ => 0
  end.

(** [n] objects inside one another around [leaf], each under the key
    [key]. *)
Fixpoint nested (key : string) (n : nat) (leaf : JsValue) : JsValue :=
  match n with
  | 0 => leaf
  | S n' => JObj [(key, nested key n' leaf)]
  end.

(** A store holding towers of objects: the cell at address [i] is an
    object whose one property, [key], holds the text ["test"] when [i]
    is 0 and the object at [i - 1] otherwise. *)
Definition towerCell (key : string) (i : nat) : Cell :=
  ObjectCell [(key, match i with
                    | 0 => VStr "test"
                    | S j => VRef j
                    end)].

Fixpoint towerHeap (key : string) (n : nat) : Heap :=
  match n with
  | 0 => []
  | S m => (towerHeap key m ++ [towerCell key m])%list
  end.

(** *** The walk against the pure function *)

(** The value the pure function puts under a key. *)
Definition pureValue (pure : JsValue -> JsValue) (r : JsValue) : JsValue :=
  if isObjectLike r then pure r else r.

(** With a call stack that admits [fuel] nested calls, the walk with
    [fieldName] computes [pure] on the record [r]: from any store and
    value holding [r] it returns, keeps every cell, and yields [pure r]
    in new cells. *)
Definition refines (fieldName : string -> string)
    (pure : JsValue -> JsValue) (fuel : nat) (r : JsValue) : Prop :=
  forall h v,
    represents h v r ->
    depth r < fuel ->
    exists v' h',
      transform fieldName fuel v h = Some (v', h')
      /\ preserved h h'
      /\ representsIn (fun a => List.length h <= a) h' v' (pure r).

(** *** A sample store *)

Definition sampleHeap : Heap :=
  [ ObjectCell [("FormattedID", VStr "US1234"); ("_ref", VStr "https://x/1")];
    ArrayCell [VRef 0; VNum 5; VNull; VBool true; VStr "text"] ].

Definition sampleRecord : JsValue :=
  JArr [ JObj [("FormattedID", JStr "US1234"); ("_ref", JStr "https://x/1")];
         JNum 5; JNull; JBool true; JStr "text" ].

(** What a walk achieves on a value [v] that is the record [r] in [h]:
    it returns; every cell of [h] is unchanged, so [v] is still [r]; and
    the result is the record [pure r], held in cells that did not exist
    before. *)
Definition walksTo (walk : nat -> Value -> Heap -> option (Value * Heap))
    (pure : JsValue -> JsValue) (fuel : nat) (h : Heap) (v : Value)
    (r : JsValue) : Prop :=
  exists v' h',
    walk fuel v h = Some (v', h')
    /\ preserved h h'
    /\ represents h' v r
    /\ representsIn (fun a => List.length h <= a) h' v' (pure r).

End Store.

(* ================================================================== *)
(** ** ErrorTypes *)
(* ================================================================== *)

Module ErrorTypes.
Import Js.

Inductive MCPErrorType : Type :=
| VALIDATION_ERROR | SCHEMA_VALIDATION_ERROR | FIELD_VALIDATION_ERROR
| AUTHENTICATION_ERROR | API_KEY_INVALID | API_KEY_EXPIRED
| PERMISSION_ERROR | UNAUTHORIZED_OPERATION
| RALLY_API_ERROR | RALLY_SERVER_ERROR | RALLY_SERVICE_UNAVAILABLE
| RALLY_RATE_LIMIT | RALLY_WORKSPACE_ERROR | RALLY_PROJECT_ERROR
| NOT_FOUND_ERROR | RESOURCE_LOCKED | RESOURCE_CONFLICT | RESOURCE_DELETED
| NETWORK_ERROR | CONNECTION_TIMEOUT | DNS_RESOLUTION_ERROR
| SSL_CERTIFICATE_ERROR | PROXY_ERROR
| SERVICE_DEGRADED | SERVICE_OVERLOAD | CIRCUIT_BREAKER_OPEN
| RESOURCE_EXHAUSTION | CONFIGURATION_ERROR
| MCP_PROTOCOL_ERROR | TRANSPORT_ERROR | SERIALIZATION_ERROR
| DATA_TRANSFORMATION_ERROR | FIELD_MAPPING_ERROR | DATA_CORRUPTION_ERROR
| INTERNAL_ERROR | UNEXPECTED_ERROR.

Definition MCPErrorType_eq_dec (a b : MCPErrorType) : {a = b} + {a <> b}.
Proof. decide equality. Defined.

Definition sameType (a b : MCPErrorType) : bool :=
  if MCPErrorType_eq_dec a b then true else false.

Inductive ErrorSeverity : Type := LOW | MEDIUM | HIGH | CRITICAL.

Inductive RecoveryStrategy : Type :=
| RETRY | RETRY_WITH_BACKOFF | CIRCUIT_BREAKER | FALLBACK
| GRACEFUL_DEGRADATION | FAIL_FAST | USER_INTERVENTION.

Record ErrorContext : Type := mkErrorContext {
  correlationId : string;
  operation : string;
  endpoint : option string;
  userId : option string;
  sessionId : option string;
  requestId : option string;
  timestamp : Z;
  environment : string;
  version : string;
  component : string;
  retryAttempt : option nat;
  previousErrors : option (list string)
}.

(** [Partial<ErrorContext>]: every field may be absent. *)
Record PartialErrorContext : Type := mkPartialErrorContext {
  p_correlationId : option string;
  p_operation : option string;
  p_endpoint : option string;
  p_userId : option string;
  p_sessionId : option string;
  p_requestId : option string;
  p_timestamp : option Z;
  p_environment : option string;
  p_version : option string;
  p_component : option string;
  p_retryAttempt : option nat;
  p_previousErrors : option (list string)
}.

Record RecoveryOptions : Type := mkRecoveryOptions {
  strategy : RecoveryStrategy;
  maxRetries : option nat;
  retryDelayMs : option nat;
  backoffMultiplier : option QArith_base.Q;
  circuitBreakerThreshold : option nat;
  userMessage : option string
}.

Definition onlyStrategy (s : RecoveryStrategy) : RecoveryOptions :=
  mkRecoveryOptions s None None None None None.

Definition retrying (s : RecoveryStrategy) (retries delay : nat)
    (multiplier : option QArith_base.Q) : RecoveryOptions :=
  mkRecoveryOptions s (Some retries) (Some delay) multiplier None None.

Definition breaking (threshold : nat) : RecoveryOptions :=
  mkRecoveryOptions CIRCUIT_BREAKER None None None (Some threshold) None.

Definition two : QArith_base.Q := QArith_base.Qmake 2 1.
Definition oneAndHalf : QArith_base.Q := QArith_base.Qmake 3 2.

Record RallyMapping : Type := mkRallyMapping {
  m_type : MCPErrorType;
  m_severity : ErrorSeverity;
  m_recovery : RecoveryStrategy
}.

(** [RALLY_ERROR_MAPPINGS], the properties in the order of the source. *)
Definition RALLY_ERROR_MAPPINGS : list (string * RallyMapping) :=
  [ ("401", mkRallyMapping AUTHENTICATION_ERROR HIGH USER_INTERVENTION);
    ("INVALID_KEY", mkRallyMapping API_KEY_INVALID HIGH USER_INTERVENTION);
    ("EXPIRED_KEY", mkRallyMapping API_KEY_EXPIRED HIGH USER_INTERVENTION);
    ("403", mkRallyMapping PERMISSION_ERROR HIGH USER_INTERVENTION);
    ("INSUFFICIENT_PERMISSIONS",
       mkRallyMapping UNAUTHORIZED_OPERATION MEDIUM USER_INTERVENTION);
    ("404", mkRallyMapping NOT_FOUND_ERROR MEDIUM FAIL_FAST);
    ("OBJECT_NOT_FOUND", mkRallyMapping NOT_FOUND_ERROR MEDIUM FAIL_FAST);
    ("OBJECT_DELETED", mkRallyMapping RESOURCE_DELETED MEDIUM FAIL_FAST);
    ("422", mkRallyMapping VALIDATION_ERROR MEDIUM FAIL_FAST);
    ("VALIDATION_FAILED", mkRallyMapping FIELD_VALIDATION_ERROR MEDIUM FAIL_FAST);
    ("INVALID_FIELD", mkRallyMapping FIELD_VALIDATION_ERROR MEDIUM FAIL_FAST);
    ("500", mkRallyMapping RALLY_SERVER_ERROR HIGH RETRY_WITH_BACKOFF);
    ("502", mkRallyMapping RALLY_SERVICE_UNAVAILABLE HIGH CIRCUIT_BREAKER);
    ("503", mkRallyMapping RALLY_SERVICE_UNAVAILABLE HIGH CIRCUIT_BREAKER);
    ("504", mkRallyMapping CONNECTION_TIMEOUT HIGH RETRY_WITH_BACKOFF);
    ("429", mkRallyMapping RALLY_RATE_LIMIT MEDIUM RETRY_WITH_BACKOFF);
    ("RATE_LIMIT_EXCEEDED",
       mkRallyMapping RALLY_RATE_LIMIT MEDIUM RETRY_WITH_BACKOFF);
    ("INVALID_WORKSPACE",
       mkRallyMapping RALLY_WORKSPACE_ERROR MEDIUM USER_INTERVENTION);
    ("INVALID_PROJECT",
       mkRallyMapping RALLY_PROJECT_ERROR MEDIUM USER_INTERVENTION);
    ("WORKSPACE_ACCESS_DENIED",
       mkRallyMapping RALLY_WORKSPACE_ERROR HIGH USER_INTERVENTION) ].

(** [table[key]] for an own property. *)
Fixpoint ownProperty {A : Type} (key : string) (table : list (string * A))
    : option A :=
  match table with
  | [] => None
  | (k, v) :: rest => if (k =? key)%string then Some v else ownProperty key rest
  end.

(** The order of [Object.values]: properties whose key is a canonical
    array index come first, in ascending numeric order; the others follow
    in the order they were written. *)
Definition indexOfKey (key : string) : option Z :=
  match NilEmpty.uint_of_string key with
  | Some u =>
      let n := Z.of_uint u in
      if (numberToString n =? key)%string && (n <? 4294967295)%Z
      then Some n else None
  | None => None
  end.

Fixpoint insertByIndex {A : Type} (n : Z) (v : A) (sorted : list (Z * A))
    : list (Z * A) :=
  match sorted with
  | [] => [(n, v)]
  | (m, w) :: rest =>
      if (n <? m)%Z then (n, v) :: sorted
      else (m, w) :: insertByIndex n v rest
  end.

Fixpoint indexProperties {A : Type} (table : list (string * A))
    : list (Z * A) :=
  match table with
  | [] => []
  | (k, v) :: rest =>
      match indexOfKey k with
      | Some n => insertByIndex n v (indexProperties rest)
      | None => indexProperties rest
      end
  end.

Fixpoint namedProperties {A : Type} (table : list (string * A)) : list A :=
  match table with
  | [] => []
  | (k, v) :: rest =>
      match indexOfKey k with
      | Some _ => namedProperties rest
      | None => v :: namedProperties rest
      end
  end.

Definition objectValues {A : Type} (table : list (string * A)) : list A :=
  map snd (indexProperties table) ++ namedProperties table.

(** A case-insensitive pattern that is an alternation of literal texts,
    as all of [NETWORK_ERROR_PATTERNS] are. *)
Record ErrorPattern : Type := mkErrorPattern {
  errorType : MCPErrorType;
  pattern : list string;
  pat_severity : ErrorSeverity;
  pat_recovery : RecoveryOptions;
  description : string
}.

(** [pattern.test(text)] with the [i] flag. *)
Definition patternTest (alternatives : list string) (text : string) : bool :=
  existsb (fun literal => includes (toLowerCase literal) (toLowerCase text))
          alternatives.

Definition NETWORK_ERROR_PATTERNS : list ErrorPattern :=
  [ mkErrorPattern CONNECTION_TIMEOUT ["timeout"; "ETIMEDOUT"] MEDIUM
      (retrying RETRY_WITH_BACKOFF 3 1000 (Some two))
      "Connection timeout - retry with exponential backoff";
    mkErrorPattern DNS_RESOLUTION_ERROR ["ENOTFOUND"; "getaddrinfo"; "DNS"] HIGH
      (breaking 5)
      "DNS resolution failure - check network connectivity";
    mkErrorPattern NETWORK_ERROR ["ECONNREFUSED"; "ECONNRESET"; "EPIPE"] HIGH
      (retrying RETRY_WITH_BACKOFF 3 2000 (Some two))
      "Network connection error - retry with backoff";
    mkErrorPattern SSL_CERTIFICATE_ERROR ["certificate"; "SSL"; "TLS"; "CERT_"]
      CRITICAL
      (mkRecoveryOptions USER_INTERVENTION None None None None
         (Some "SSL certificate validation failed. Check server certificate."))
      "SSL certificate validation error - requires manual intervention" ].

(** [DEFAULT_RECOVERY_OPTIONS]: the source gives an entry for every
    member of [MCPErrorType]. *)
Definition DEFAULT_RECOVERY_OPTIONS (t : MCPErrorType) : RecoveryOptions :=
  match t with
  | VALIDATION_ERROR | SCHEMA_VALIDATION_ERROR | FIELD_VALIDATION_ERROR =>
      onlyStrategy FAIL_FAST
  | AUTHENTICATION_ERROR | API_KEY_INVALID | API_KEY_EXPIRED
  | PERMISSION_ERROR | UNAUTHORIZED_OPERATION =>
      onlyStrategy USER_INTERVENTION
  | RALLY_API_ERROR => retrying RETRY_WITH_BACKOFF 3 1000 (Some two)
  | RALLY_SERVER_ERROR => retrying RETRY_WITH_BACKOFF 3 2000 (Some two)
  | RALLY_SERVICE_UNAVAILABLE => breaking 5
  | RALLY_RATE_LIMIT => retrying RETRY_WITH_BACKOFF 5 5000 (Some two)
  | RALLY_WORKSPACE_ERROR | RALLY_PROJECT_ERROR => onlyStrategy USER_INTERVENTION
  | NOT_FOUND_ERROR => onlyStrategy FAIL_FAST
  | RESOURCE_LOCKED => retrying RETRY_WITH_BACKOFF 3 5000 (Some oneAndHalf)
  | RESOURCE_CONFLICT => retrying RETRY 2 1000 None
  | RESOURCE_DELETED => onlyStrategy FAIL_FAST
  | NETWORK_ERROR => retrying RETRY_WITH_BACKOFF 3 1000 (Some two)
  | CONNECTION_TIMEOUT => retrying RETRY_WITH_BACKOFF 3 2000 (Some two)
  | DNS_RESOLUTION_ERROR => breaking 5
  | SSL_CERTIFICATE_ERROR => onlyStrategy USER_INTERVENTION
  | PROXY_ERROR => retrying RETRY_WITH_BACKOFF 3 1000 (Some two)
  | SERVICE_DEGRADED => onlyStrategy GRACEFUL_DEGRADATION
  | SERVICE_OVERLOAD => breaking 3
  | CIRCUIT_BREAKER_OPEN => onlyStrategy GRACEFUL_DEGRADATION
  | RESOURCE_EXHAUSTION => breaking 2
  | CONFIGURATION_ERROR => onlyStrategy USER_INTERVENTION
  | MCP_PROTOCOL_ERROR => onlyStrategy FAIL_FAST
  | TRANSPORT_ERROR => retrying RETRY_WITH_BACKOFF 3 1000 (Some two)
  | SERIALIZATION_ERROR => onlyStrategy FAIL_FAST
  | DATA_TRANSFORMATION_ERROR | FIELD_MAPPING_ERROR | DATA_CORRUPTION_ERROR =>
      onlyStrategy FAIL_FAST
  | INTERNAL_ERROR => retrying RETRY 1 1000 None
  | UNEXPECTED_ERROR => onlyStrategy FAIL_FAST
  end.

(** What [details] holds, by the path that built the record. *)
Inductive ErrorDetails : Type :=
| ErrorInfo (originalMessage name : string) (cause : JsValue)
| HttpInfo (httpStatus : option Z) (httpStatusText : option string)
    (responseData : option JsValue)
    (requestUrl requestMethod axiosCode : option string)
    (headers : option (list (string * string)))
| UnknownInfo (error type : string).

Record OccurrenceMetrics : Type := mkOccurrenceMetrics {
  occurrenceCount : nat;
  firstOccurrence : Z;
  lastOccurrence : Z;
  affectedOperations : list string
}.

(** [MCPError].  [rallyErrorMessage], which the handler extracts from the
    response body, and the resolution fields set later by [resolveError]
    are left out. *)
Record MCPError : Type := mkMCPError {
  type : MCPErrorType;
  severity : ErrorSeverity;
  message : string;
  details : ErrorDetails;
  context : ErrorContext;
  recovery : RecoveryOptions;
  rallyErrorCode : option string;
  stackTrace : option string;
  metrics : OccurrenceMetrics
}.

End ErrorTypes.

(* ================================================================== *)
(** ** ErrorHandler *)
(* ================================================================== *)

Module ErrorHandler.
Import Js ErrorTypes.

Record ErrorHandlerConfig : Type := mkConfig {
  cfg_environment : string;
  cfg_version : string;
  enableStackTrace : bool;
  enableErrorAggregation : bool;
  maxErrorHistory : nat;
  correlationIdHeader : option string
}.

(** *** The values [handleError] can be given *)

(** The response of a transport failure.  [status] is the numeric
    [response.status]; it is [None] when the property is missing or null,
    as it can be on a value that only carries the [isAxiosError] mark. *)
Record HttpResponse : Type := mkHttpResponse {
  status : option Z;
  statusText : option string;
  data : JsValue;
  headers : list (string * string)
}.

Record RequestConfig : Type := mkRequestConfig {
  url : option string;
  method : option string
}.

(** The fields the handler reads on a transport failure.  Apart from
    the status, they have the types the client's [AxiosError] declares:
    texts are strings when present. *)
Record TransportFields : Type := mkTransportFields {
  response : option HttpResponse;  (* [None]: absent or falsy *)
  request : bool;                  (* whether [request] is truthy *)
  code : option string;
  config : option RequestConfig
}.

Definition noTransport : TransportFields :=
  mkTransportFields None false None None.

(** A value that is neither an [Error] nor marked [isAxiosError]. *)
Inductive PlainValue : Type :=
| PUndefined
| PNull
| PBool (b : bool)
| PNum (n : Z)
| PStr (s : string)
| PObject (text : option string).
  (* an object; [text] is what [String(v)] returns, [None] when the
     conversion throws (no prototype, a [toString] that throws) *)

(** What [error.message] or [error.name] holds when it is not a string:
    [undefined], [null], or a value of another kind, which has no
    [toLowerCase] (a number, a boolean, a plain object). *)
Inductive NonString : Type :=
| NotDefined
| IsNull
| OtherKind.

(** The texts of an [Error] one of which is not a string.  The message
    is the one read first. *)
Inductive MissingText : Type :=
| MessageNotString (message : NonString)
| NameNotString (message : string) (name : NonString).

(** The [error: unknown] of [handleError].
    - [ErrorInstance]: [error instanceof Error] holds, and [name] and
      [message] are strings, as [Error] declares them.  An error raised
      by the HTTP client is of this kind: it also carries the
      [isAxiosError] mark and the transport fields.
    - [ErrorWithoutText]: [error instanceof Error] holds, and [message]
      or [name] is not a string (they are ordinary properties, which can
      be assigned anything).
    - [AxiosShaped]: not an [Error], and [error.isAxiosError === true].
    - [OtherValue]: anything else. *)
Inductive RawFailure : Type :=
| ErrorInstance (name message : string) (stack : option string)
    (cause : JsValue) (isAxiosError : bool) (transport : TransportFields)
| ErrorWithoutText (texts : MissingText) (transport : TransportFields)
| AxiosShaped (message : option string) (stack : option string)
    (transport : TransportFields)
| OtherValue (v : PlainValue).

(** *** State, environment and results *)

Inductive LogCall : Type :=
| LoggerError (text : string) (e : MCPError)
| LoggerWarn (text : string) (e : MCPError)
| LoggerInfo (text : string) (e : MCPError).

Record HandlerState : Type := mkState {
  errorHistory : list MCPError;
  errorCounts : list (MCPErrorType * nat);
  logged : list LogCall
}.

Definition initialState : HandlerState := mkState [] [] [].

(** What the call reads from outside: the identifier [uuidv4()] returns
    and the clock (read as one instant within a call). *)
Record Environment : Type := mkEnvironment {
  uuid : string;
  now : Z
}.

Inductive Outcome (A : Type) : Type :=
| Returned (a : A)
| Threw (typeError : string).
Arguments Returned {A} a.
Arguments Threw {A} typeError.

(** Computations of the handler: they read and update its fields and may
    throw. *)
Definition Handler (A : Type) : Type :=
  HandlerState -> Outcome (A * HandlerState).

Definition ret {A : Type} (a : A) : Handler A :=
  fun st => Returned (a, st).

Definition bind {A B : Type} (m : Handler A) (k : A -> Handler B)
    : Handler B :=
  fun st =>
    match m st with
    | Returned (a, st') => k a st'
    | Threw e => Threw e
    end.

Definition throw {A : Type} (e : string) : Handler A :=
  fun _ => Threw e.

Definition gets {A : Type} (f : HandlerState -> A) : Handler A :=
  fun st => Returned (f st, st).

Definition modify (f : HandlerState -> HandlerState) : Handler unit :=
  fun st => Returned (tt, f st).

Notation "x <- m ;; k" := (bind m (fun x => k))
  (at level 61, m at next level, right associativity).
Notation "m ;;; k" := (bind m (fun _ => k))
  (at level 61, right associativity).

(** *** Counters and history *)

Fixpoint countOf (t : MCPErrorType) (counts : list (MCPErrorType * nat))
    : nat :=
  match counts with
  | [] => 0
  | (k, n) :: rest => if sameType k t then n else countOf t rest
  end.

Fixpoint setCount (t : MCPErrorType) (n : nat)
    (counts : list (MCPErrorType * nat)) : list (MCPErrorType * nat) :=
  match counts with
  | [] => [(t, n)]
  | (k, m) :: rest =>
      if sameType k t then (k, n) :: rest else (k, m) :: setCount t n rest
  end.

Definition getErrorCount (errorType : MCPErrorType) : Handler nat :=
  gets (fun st => countOf errorType (errorCounts st)).

Definition trackError (error : MCPError) : Handler unit :=
  modify (fun st =>
    let count := countOf (type error) (errorCounts st) in
    mkState (errorHistory st)
            (setCount (type error) (count + 1) (errorCounts st))
            (logged st)).

Definition logError (error : MCPError) : Handler unit :=
  modify (fun st =>
    let call :=
      match severity error with
      | CRITICAL => LoggerError "Critical error occurred" error
      | HIGH => LoggerError "High severity error" error
      | MEDIUM => LoggerWarn "Medium severity error" error
      | LOW => LoggerInfo "Low severity error" error
      end in
    mkState (errorHistory st) (errorCounts st) (logged st ++ [call])%list).

(** [history.slice(-n)]: the last [n] elements, and the whole array when
    [n] is 0. *)
Definition sliceLast {A : Type} (n : nat) (l : list A) : list A :=
  match n with
  | 0 => l
  | _ => skipn (List.length l - n) l
  end.

Definition addToHistory (config : ErrorHandlerConfig) (error : MCPError)
    : Handler unit :=
  modify (fun st =>
    let pushed := (errorHistory st ++ [error])%list in
    let bounded :=
      if (maxErrorHistory config <? List.length pushed)%nat
      then sliceLast (maxErrorHistory config) pushed
      else pushed in
    mkState bounded (errorCounts st) (logged st)).

(** *** Classification *)

Definition classifyError (name message : string) : MCPErrorType :=
  let message := toLowerCase message in
  let name := toLowerCase name in
  if includes "validation" name || includes "validation" message then
    VALIDATION_ERROR
  else
    match find (fun p => patternTest (pattern p) message
                         || patternTest (pattern p) name)
               NETWORK_ERROR_PATTERNS with
    | Some p => errorType p
    | None =>
        if includes "typeerror" name then DATA_TRANSFORMATION_ERROR
        else if includes "syntaxerror" name then SERIALIZATION_ERROR
        else if includes "authentication" message
                || includes "unauthorized" message then AUTHENTICATION_ERROR
        else if includes "permission" message
                || includes "forbidden" message then PERMISSION_ERROR
        else INTERNAL_ERROR
    end.

(** [value.toLowerCase()] on a value that is not a string: the
    [TypeError] thrown. *)
Definition toLowerCaseFailure (property : string) (value : NonString)
    : string :=
  match value with
  | NotDefined => "Cannot read properties of undefined (reading 'toLowerCase')"
  | IsNull => "Cannot read properties of null (reading 'toLowerCase')"
  | OtherKind => "error." ++ property ++ ".toLowerCase is not a function"
  end.

(** [classifyError] on an [Error] without its texts: the first two
    statements lower the message, then the name; the first of the two
    that is not a string throws. *)
Definition classifyErrorFailure (texts : MissingText) : string :=
  match texts with
  | MessageNotString message => toLowerCaseFailure "message" message
  | NameNotString _ name => toLowerCaseFailure "name" name
  end.

Definition classifyNetworkError (message : string) : MCPErrorType :=
  match find (fun p => patternTest (pattern p) message)
             NETWORK_ERROR_PATTERNS with
  | Some p => errorType p
  | None => NETWORK_ERROR
  end.

(** [Object.values(RALLY_ERROR_MAPPINGS).find(m => m.type === errorType)] *)
Definition rallyMappingOf (errorType : MCPErrorType) : option RallyMapping :=
  find (fun mapping => sameType (m_type mapping) errorType)
       (objectValues RALLY_ERROR_MAPPINGS).

Definition determineSeverity (errorType : MCPErrorType) : ErrorSeverity :=
  match rallyMappingOf errorType with
  | Some rallyMapping => m_severity rallyMapping
  | None =>
      match errorType with
      | AUTHENTICATION_ERROR | API_KEY_INVALID | API_KEY_EXPIRED
      | SSL_CERTIFICATE_ERROR | CONFIGURATION_ERROR => CRITICAL
      | RALLY_SERVICE_UNAVAILABLE | DNS_RESOLUTION_ERROR
      | RESOURCE_EXHAUSTION => HIGH
      | VALIDATION_ERROR | NOT_FOUND_ERROR | RALLY_RATE_LIMIT
      | CONNECTION_TIMEOUT => MEDIUM
      | _ => LOW
      end
  end.

Definition withStrategy (base : RecoveryOptions) (s : RecoveryStrategy)
    : RecoveryOptions :=
  mkRecoveryOptions s (maxRetries base) (retryDelayMs base)
    (backoffMultiplier base) (circuitBreakerThreshold base) (userMessage base).

Definition determineRecoveryStrategy (errorType : MCPErrorType)
    : RecoveryOptions :=
  match rallyMappingOf errorType with
  | Some rallyMapping =>
      let baseStrategy := DEFAULT_RECOVERY_OPTIONS errorType in
      withStrategy baseStrategy (m_recovery rallyMapping)
  | None => DEFAULT_RECOVERY_OPTIONS errorType
  end.

Definition getHttpErrorSeverity (status : Z) : ErrorSeverity :=
  if (500 <=? status)%Z then HIGH
  else if (400 <=? status)%Z then MEDIUM
  else LOW.

(** The [userMessages] table of [createUserFriendlyMessage]. *)
Definition userMessages (t : MCPErrorType) : option string :=
  match t with
  | AUTHENTICATION_ERROR =>
      Some "Authentication failed. Please check your Rally API key."
  | API_KEY_INVALID => Some "The provided Rally API key is invalid."
  | API_KEY_EXPIRED =>
      Some "Your Rally API key has expired. Please renew it."
  | PERMISSION_ERROR =>
      Some "You do not have permission to perform this operation."
  | NOT_FOUND_ERROR => Some "The requested resource was not found."
  | VALIDATION_ERROR => Some "The provided data is invalid."
  | RALLY_SERVICE_UNAVAILABLE =>
      Some "Rally service is temporarily unavailable. Please try again later."
  | RALLY_RATE_LIMIT =>
      Some "Rally API rate limit exceeded. Please wait before trying again."
  | CONNECTION_TIMEOUT =>
      Some "Connection timeout. Please check your network connection."
  | NETWORK_ERROR =>
      Some "Network error occurred. Please check your connection."
  | CIRCUIT_BREAKER_OPEN =>
      Some "Service is temporarily unavailable due to repeated failures."
  | CONFIGURATION_ERROR =>
      Some "Configuration error. Please check your settings."
  | INTERNAL_ERROR => Some "An internal error occurred. Please try again."
  | UNEXPECTED_ERROR => Some "An unexpected error occurred."
  | _ => None
  end.

(** The text a template literal gives for a string that may be
    [undefined]. *)
Definition textOf (s : option string) : string :=
  match s with
  | Some t => t
  | None => "undefined"
  end.

Definition createUserFriendlyMessage (errorType : MCPErrorType)
    (originalMessage : option string) : string :=
  match userMessages errorType with
  | Some template => template
  | None => "Error: " ++ textOf originalMessage
  end.

(** *** The three ways of building the record *)

Definition processError (config : ErrorHandlerConfig)
    (name message : string) (stack : option string) (cause : JsValue)
    (clock : Z) (context : ErrorContext) : Handler MCPError :=
  let errorType := classifyError name message in
  let severity := determineSeverity errorType in
  let recovery := determineRecoveryStrategy errorType in
  count <- getErrorCount errorType ;;
  ret (mkMCPError errorType severity
         (createUserFriendlyMessage errorType (Some message))
         (ErrorInfo message name cause)
         context recovery None
         (if enableStackTrace config then stack else None)
         (mkOccurrenceMetrics count clock clock [operation context])).

Definition withEndpoint (context : ErrorContext) (e : option string)
    : ErrorContext :=
  mkErrorContext (correlationId context) (operation context) e
    (userId context) (sessionId context) (requestId context)
    (timestamp context) (environment context) (version context)
    (component context) (retryAttempt context) (previousErrors context).

Definition configUrl (t : TransportFields) : option string :=
  match config t with
  | Some c => url c
  | None => None
  end.

Definition configMethod (t : TransportFields) : option string :=
  match config t with
  | Some c => option_map toUpperCase (method c)
  | None => None
  end.

Definition processAxiosError (cfg : ErrorHandlerConfig)
    (message : option string) (stack : option string)
    (t : TransportFields) (clock : Z) (context : ErrorContext)
    : Handler MCPError :=
  classified <-
    match response t with
    | Some r =>
        match status r with
        | None =>
            throw "Cannot read properties of undefined (reading 'toString')"
        | Some code =>
            let status := numberToString code in
            let typeAndSeverity :=
              match ownProperty status RALLY_ERROR_MAPPINGS with
              | Some mapping => (m_type mapping, m_severity mapping)
              | None => (RALLY_API_ERROR, getHttpErrorSeverity code)
              end in
            ret (typeAndSeverity, Some status, withEndpoint context (configUrl t))
        end
    | None =>
        if request t
        then ret ((classifyNetworkError (textOf message), HIGH), None, context)
        else ret ((CONFIGURATION_ERROR, MEDIUM), None, context)
    end ;;
  let '(errorType, severity, rallyErrorCode, context) := classified in
  let recovery := determineRecoveryStrategy errorType in
  count <- getErrorCount errorType ;;
  ret (mkMCPError errorType severity
         (createUserFriendlyMessage errorType message)
         (HttpInfo
            (match response t with Some r => status r | None => None end)
            (match response t with Some r => statusText r | None => None end)
            (option_map data (response t))
            (configUrl t) (configMethod t) (code t)
            (option_map headers (response t)))
         context recovery rallyErrorCode
         (if enableStackTrace cfg then stack else None)
         (mkOccurrenceMetrics count clock clock [operation context])).

(** [String(error)] and [typeof error] *)
Definition stringOf (v : PlainValue) : option string :=
  match v with
  | PUndefined => Some "undefined"
  | PNull => Some "null"
  | PBool true => Some "true"
  | PBool false => Some "false"
  | PNum n => Some (numberToString n)
  | PStr s => Some s
  | PObject text => text
  end.

Definition typeOf (v : PlainValue) : string :=
  match v with
  | PUndefined => "undefined"
  | PNull => "object"
  | PBool _ => "boolean"
  | PNum _ => "number"
  | PStr _ => "string"
  | PObject _ => "object"
  end.

Definition processUnknownError (error : PlainValue) (clock : Z)
    (context : ErrorContext) : Handler MCPError :=
  let errorType := UNEXPECTED_ERROR in
  let severity := HIGH in
  let recovery := DEFAULT_RECOVERY_OPTIONS errorType in
  match stringOf error with
  | None => throw "Cannot convert object to primitive value"
  | Some text =>
      count <- getErrorCount errorType ;;
      ret (mkMCPError errorType severity "An unexpected error occurred"
             (UnknownInfo text (typeOf error))
             context recovery None None
             (mkOccurrenceMetrics count clock clock [operation context]))
  end.

(** *** [handleError] *)

Definition orElse {A : Type} (o : option A) (d : A) : A :=
  match o with
  | Some a => a
  | None => d
  end.

Definition keep {A : Type} (o d : option A) : option A :=
  match o with
  | Some a => Some a
  | None => d
  end.

(** [{ ...base, ...context }] *)
Definition spread (base : ErrorContext) (context : option PartialErrorContext)
    : ErrorContext :=
  match context with
  | None => base
  | Some c =>
      mkErrorContext
        (orElse (p_correlationId c) (correlationId base))
        (orElse (p_operation c) (operation base))
        (keep (p_endpoint c) (endpoint base))
        (keep (p_userId c) (userId base))
        (keep (p_sessionId c) (sessionId base))
        (keep (p_requestId c) (requestId base))
        (orElse (p_timestamp c) (timestamp base))
        (orElse (p_environment c) (environment base))
        (orElse (p_version c) (version base))
        (orElse (p_component c) (component base))
        (keep (p_retryAttempt c) (retryAttempt base))
        (keep (p_previousErrors c) (previousErrors base))
  end.

Definition handleError (cfg : ErrorHandlerConfig) (env : Environment)
    (error : RawFailure) (operation : string)
    (context : option PartialErrorContext) : Handler MCPError :=
  let correlationId :=
    match context with
    | Some c =>
        match p_correlationId c with
        | Some id => if (id =? "")%string then uuid env else id
        | None => uuid env
        end
    | None => uuid env
    end in
  let errorContext :=
    spread (mkErrorContext correlationId operation None None None None
              (now env) (cfg_environment cfg) (cfg_version cfg)
              "mcp-rally-server" None None)
           context in
  mcpError <-
    match error with
    | ErrorInstance name message stack cause _ _ =>
        (* error instanceof Error *)
        processError cfg name message stack cause (now env) errorContext
    | ErrorWithoutText texts _ =>
        (* error instanceof Error: processError begins with
           classifyError, which throws *)
        throw (classifyErrorFailure texts)
    | AxiosShaped message stack t =>
        (* else if this.isAxiosError(error) *)
        processAxiosError cfg message stack t (now env) errorContext
    | OtherValue v =>
        processUnknownError v (now env) errorContext
    end ;;
  trackError mcpError ;;;
  logError mcpError ;;;
  (if enableErrorAggregation cfg then addToHistory cfg mcpError else ret tt) ;;;
  ret mcpError.

(** *** History and counters, seen from outside *)







End ErrorHandler.

(* ================================================================== *)
(** ** SecurityManager *)
(* ================================================================== *)

Module SecurityManager.
Import Js.

(** The fields the constructor fills from the environment. *)
Record SecurityManager : Type := mkSecurityManager {
  apiKey : option string;
  integrationVendor : string;
  integrationVersion : string
}.

(** A string that may be [undefined], where the code tests it for truth:
    the empty string counts as absent. *)
Definition truthy (s : option string) : option string :=
  match s with
  | Some text => if (text =? "")%string then None else Some text
  | None => None
  end.

(** [a || b] on two strings that may be [undefined]. *)
Definition orKey (a b : option string) : option string :=
  match truthy a with
  | Some text => Some text
  | None => b
  end.

(** [a || 'text'] *)
Definition orText (a : option string) (fallback : string) : string :=
  match truthy a with
  | Some text => text
  | None => fallback
  end.

(** [new SecurityManager()], [env] being [process.env]. *)
Definition construct (env : string -> option string) : SecurityManager :=
  mkSecurityManager
    (env "RALLY_API_KEY")
    (orText (env "RALLY_INTEGRATION_VENDOR") "AI-Assistant")
    (orText (env "npm_package_version") "1.0.0").

(** The result of a method that returns or throws an [Error] with a
    message. *)
Inductive Result (A : Type) : Type :=
| Ok (a : A)
| Failed (message : string).
Arguments Ok {A} a.
Arguments Failed {A} message.

(** [[A-Za-z0-9_-]] *)
Definition keyCharacter (c : ascii) : bool :=
  isUpper c || isLower c || isDigit c || (c =? "_")%char || (c =? "-")%char.

Fixpoint keyCharacters (s : string) : bool :=
  match s with
  | "" => true
  | String c r => keyCharacter c && keyCharacters r
  end.

(** [/^[A-Za-z0-9_-]+$/.test(s)] *)
Definition apiKeyPattern (s : string) : bool :=
  match s with
  | "" => false
  | String _ _ => keyCharacters s
  end.

(** The promise of [validateApiKey]: fulfilled with [true], or rejected. *)
Definition validateApiKey (this : SecurityManager)
    (providedApiKey : option string) : Result bool :=
  let keyToValidate := orKey providedApiKey (apiKey this) in
  match truthy keyToValidate with
  | None =>
      Failed "RALLY_API_KEY environment variable is required but not set"
  | Some key =>
      if (String.length key <? 10)%nat then
        Failed "RALLY_API_KEY appears to be invalid (too short)"
      else if negb (apiKeyPattern key) then
        Failed "RALLY_API_KEY contains invalid characters"
      else Ok true
  end.

Definition getAuthHeaders (this : SecurityManager)
    (providedApiKey : option string) : Result (list (string * string)) :=
  let keyToUse := orKey providedApiKey (apiKey this) in
  match truthy keyToUse with
  | None =>
      Failed ("API key not available. Provide an API key or set "
              ++ "RALLY_API_KEY environment variable.")
  | Some key =>
      Ok [ ("zsessionid", key);
           ("X-RallyIntegrationName", "mcp-rally");
           ("X-RallyIntegrationVendor", integrationVendor this);
           ("X-RallyIntegrationVersion", integrationVersion this);
           ("Content-Type", "application/json");
           ("Accept", "application/json") ]
  end.

Definition sensitiveFields : list string :=
  [ "authorization"; "apikey"; "api_key"; "password"; "token"; "secret";
    "zsessionid" ].

Fixpoint sanitizeLogData (data : JsValue) : JsValue :=
  match data with
  | JArr items => JArr (map sanitizeLogData items)
  | JObj entries =>
      JObj (fold_left
              (fun sanitized kv =>
                 let key := fst kv in
                 let value := snd kv in
                 let lowerKey := toLowerCase key in
                 if existsb (fun field => includes field lowerKey)
                            sensitiveFields
                 then setProperty sanitized key (JStr "[REDACTED]")
                 else if isObjectLike value
                 then setProperty sanitized key (sanitizeLogData value)
                 else setProperty sanitized key value)
              entries [])
  | _ => data
  end.

End SecurityManager.

(* ================================================================== *)
(** ** RallyClient: the tables of artifact types and the query
       parameters *)
(* ================================================================== *)

Module RallyClient.
Import Js DataTransformer SecurityManager.

Definition artifactEndpoints : list (string * string) :=
  [ ("UserStory", "/hierarchicalrequirement");
    ("HierarchicalRequirement", "/hierarchicalrequirement");
    ("Defect", "/defect");
    ("Task", "/task");
    ("Project", "/project");
    ("User", "/user");
    ("Workspace", "/workspace");
    ("Iteration", "/iteration") ].

Definition artifactTypeMapping : list (string * string) :=
  [ ("UserStory", "HierarchicalRequirement");
    ("HierarchicalRequirement", "HierarchicalRequirement");
    ("Defect", "Defect");
    ("Task", "Task");
    ("Project", "Project");
    ("User", "User");
    ("Workspace", "Workspace");
    ("Iteration", "Iteration") ].

(** What [table[key]] gives when the table is an object literal with
    string values: the string of an own property, a member inherited
    from [Object.prototype], or [undefined]. *)
Inductive Member : Type :=
| OwnText (text : string)
| Inherited (name : string)
| Undefined.

Definition member (table : list (string * string)) (key : string) : Member :=
  match ownEntry key table with
  | Some text => OwnText text
  | None =>
      match inheritedMember key with
      | Some _ => Inherited key
      | None => Undefined
      end
  end.

Definition isTruthy (m : Member) : bool :=
  match m with
  | OwnText text => negb (text =? "")%string
  | Inherited _ => true
  | Undefined => false
  end.

Definition getEndpointForArtifact (artifactType : string) : Result Member :=
  let endpoint := member artifactEndpoints artifactType in
  if negb (isTruthy endpoint)
  then Failed ("Unknown artifact type: " ++ artifactType)
  else Ok endpoint.

Definition getRallyArtifactType (artifactType : string) : Member :=
  let found := member artifactTypeMapping artifactType in
  if isTruthy found then found else OwnText artifactType.

(** [RallyQuery].  The two numbers are integers here. *)
Record RallyQuery : Type := mkRallyQuery {
  q_query : option string;
  q_fetch : option string;
  q_order : option string;
  q_start : option Z;
  q_pagesize : option Z;
  q_workspace : option string;
  q_project : option string
}.

Definition buildQueryParams (query : RallyQuery) : list (string * string) :=
  let params : list (string * string) := [] in
  let params :=
    match truthy (q_query query) with
    | Some text => setProperty params "query" text
    | None => params
    end in
  let params :=
    match truthy (q_fetch query) with
    | Some text => setProperty params "fetch" text
    | None =>
        setProperty params "fetch"
          ("FormattedID,Name,Description,Owner,Project,"
           ++ "CreationDate,LastUpdateDate")
    end in
  let params :=
    match truthy (q_order query) with
    | Some text => setProperty params "order" text
    | None => params
    end in
  let params :=
    match q_start query with
    | Some start => setProperty params "start" (numberToString start)
    | None => params
    end in
  let params :=
    match q_pagesize query with
    | Some pagesize =>
        setProperty params "pagesize" (numberToString (Z.min pagesize 200))
    | None => setProperty params "pagesize" "20"
    end in
  let params :=
    match truthy (q_workspace query) with
    | Some text => setProperty params "workspace" text
    | None => params
    end in
  let params :=
    match truthy (q_project query) with
    | Some text => setProperty params "project" text
    | None => params
    end in
  params.

End RallyClient.

(* ================================================================== *)
(** ** Vocabulary of the properties *)
(* ================================================================== *)

(** Names made of words, for the round trips of the transformer. *)
Module Vocabulary.
Import Js.

(** A word: a lower-case letter followed by at least one lower-case
    letter or digit. *)
Fixpoint allLowerOrDigit (s : string) : bool :=
  match s with
  | "" => true
  | String c r => (isLower c || isDigit c) && allLowerOrDigit r
  end.

Definition isWord (w : string) : bool :=
  match w with
  | String a (String b r) => isLower a && allLowerOrDigit (String b r)
  | _ => false
  end.

Definition capitalize (w : string) : string :=
  match w with
  | "" => ""
  | String a r => String (charToUpper a) r
  end.

(** The external and the internal spelling of a list of words. *)
Definition pascalOf (ws : list string) : string :=
  String.concat "" (map capitalize ws).

Definition kebabOf (ws : list string) : string :=
  String.concat "-" ws.

Fixpoint dashedWords (ws : list string) : string :=
  match ws with
  | [] => ""
  | w :: rest => "-" ++ w ++ dashedWords rest
  end.

Fixpoint dashedCapitals (ws : list string) : string :=
  match ws with
  | [] => ""
  | w :: rest => "-" ++ capitalize w ++ dashedCapitals rest
  end.

Fixpoint allUpper (s : string) : bool :=
  match s with
  | "" => true
  | String c r => isUpper c && allUpper r
  end.

Fixpoint noUpperPair (s : string) : bool :=
  match s with
  | String a ((String b _) as t) =>
      negb (isUpper a && isUpper b) && noUpperPair t
  | _ => true
  end.

(** A property of characters is checked on the 256 of them. *)
Definition bothBooleans (f : bool -> bool) : bool := f true && f false.

Definition everyCharacter (f : ascii -> bool) : bool :=
  bothBooleans (fun b0 => bothBooleans (fun b1 =>
  bothBooleans (fun b2 => bothBooleans (fun b3 =>
  bothBooleans (fun b4 => bothBooleans (fun b5 =>
  bothBooleans (fun b6 => bothBooleans (fun b7 =>
    f (Ascii b0 b1 b2 b3 b4 b5 b6 b7))))))))).

End Vocabulary.

(** Raw failures, for the properties of the classifier. *)
Module Failures.
Import Js ErrorTypes ErrorHandler.

(** The raw failure's own message, as the handler reads it (the empty
    text when the message is not a string: the handler then reads
    none). *)
Definition rawMessage (error : RawFailure) : string :=
  match error with
  | ErrorInstance _ message _ _ _ _ => message
  | ErrorWithoutText (NameNotString message _) _ => message
  | ErrorWithoutText (MessageNotString _) _ => ""
  | AxiosShaped message _ _ => textOf message
  | OtherValue v => textOf (stringOf v)
  end.

(** The status of the response a failure carries, if any. *)
Definition carriedStatus (error : RawFailure) : option Z :=
  match error with
  | ErrorInstance _ _ _ _ _ t | ErrorWithoutText _ t | AxiosShaped _ _ t =>
      match response t with
      | Some r => status r
      | None => None
      end
  | OtherValue _ => None
  end.

(** [error instanceof Error] *)
Definition instanceOfError (error : RawFailure) : bool :=
  match error with
  | ErrorInstance _ _ _ _ _ _ | ErrorWithoutText _ _ => true
  | AxiosShaped _ _ _ | OtherValue _ => false
  end.


Definition sampleConfig : ErrorHandlerConfig :=
  mkConfig "test" "1.0.0" false true 100 None.

Definition sampleEnvironment : Environment :=
  mkEnvironment "00000000-0000-4000-8000-000000000000" 1700000000000.

Definition responseWith (code : Z) : TransportFields :=
  mkTransportFields (Some (mkHttpResponse (Some code) None JUndefined []))
    true None None.

(** Two replies with status 500 that differ in their message. *)
Definition refusedUpstream : RawFailure :=
  AxiosShaped (Some "connect to db-7.corp.internal:5432 refused") None
    (responseWith 500).

Definition failedWith500 : RawFailure :=
  AxiosShaped (Some "Request failed with status code 500") None
    (responseWith 500).

(** *** Calls in sequence *)






(** The categories [classifyError] can give. *)
Definition errorPathCategories : list MCPErrorType :=
  [ VALIDATION_ERROR; CONNECTION_TIMEOUT; DNS_RESOLUTION_ERROR; NETWORK_ERROR;
    SSL_CERTIFICATE_ERROR; DATA_TRANSFORMATION_ERROR; SERIALIZATION_ERROR;
    AUTHENTICATION_ERROR; PERMISSION_ERROR; INTERNAL_ERROR ].


(** The number a key of the status table stands for, if it is one. *)
Definition readNumber (key : string) : option Z :=
  option_map Z.of_int (NilEmpty.int_of_string key).

End Failures.

(** Records and their keys, for the properties of the walks. *)
Module Shapes.
Import Js DataTransformer SecurityManager.





(** No value of an object is itself an array or an object. *)
Definition flat (entries : list (string * JsValue)) : bool :=
  forallb (fun kv => negb (isObjectLike (snd kv))) entries.

(** A key the sanitizer takes for a secret. *)
Definition isSensitive (key : string) : bool :=
  existsb (fun field => includes field (toLowerCase key)) sensitiveFields.

Definition isRedactionMark (v : JsValue) : bool :=
  match v with
  | JStr s => (s =? "[REDACTED]")%string
  | _ => false
  end.

(** Every property with a sensitive key, at every depth, holds the
    redaction mark. *)
Fixpoint redacted (r : JsValue) : bool :=
  match r with
  | JArr items => forallb redacted items
  | JObj entries =>
      forallb
        (fun kv =>
           (if isSensitive (fst kv) then isRedactionMark (snd kv) else true)
           && redacted (snd kv))
        entries
  | _ => true
  end.

(** The headers of a request as a record to be logged. *)
Definition headersRecord (headers : list (string * string)) : JsValue :=
  JObj (map (fun kv => (fst kv, JStr (snd kv))) headers).

End Shapes.

(** Queries and artifact types, for the properties of the client. *)
Module Queries.
Import Js RallyClient.

(** The names of artifact types the client knows. *)
Definition knownArtifacts : list string :=
  [ "UserStory"; "HierarchicalRequirement"; "Defect"; "Task"; "Project";
    "User"; "Workspace"; "Iteration" ].

(** An integer the host language holds exactly, written in decimal by
    [toString]. *)
Definition safeInteger (n : Z) : bool :=
  (Z.abs n <? 2 ^ 53)%Z.

Definition safeNumbers (query : RallyQuery) : bool :=
  match q_start query with Some n => safeInteger n | None => true end
  && match q_pagesize query with Some n => safeInteger n | None => true end.

End Queries.

(* ================================================================== *)
(** ** Properties of the transformer *)
(* ================================================================== *)

Module TransformerSpec.
Import Js DataTransformer Vocabulary.

(** *** Prefixes *)

Lemma rallyFieldToMcp_metadata s :
  rallyFieldToMcp ("_" ++ s) = "metadata-" ++ camelToKebab s.
Proof. reflexivity. Qed.

Lemma rallyFieldToMcp_custom s :
  rallyFieldToMcp ("c_" ++ s) = "custom-" ++ camelToKebab s.
Proof. reflexivity. Qed.

Lemma mcpFieldToRally_metadata s :
  mcpFieldToRally ("metadata-" ++ s) = "_" ++ kebabToRallySpecialCase s.
Proof. reflexivity. Qed.

Lemma mcpFieldToRally_custom s :
  mcpFieldToRally ("custom-" ++ s) = "c_" ++ kebabToRallySpecialCase s.
Proof. reflexivity. Qed.

(** C7.  The three examples of the specification hold, and in general:
    a name that starts with an underscore loses it and gets the
    [metadata-] prefix, a name that starts with [c_] loses that and gets
    [custom-], whatever follows; in the other direction [metadata-] is
    replaced by the underscore and [custom-] by [c_]; going forth and back
    gives the marker back.  The prefix is looked at before the table: the
    table's own key [custom-priority] is read as a custom field. *)
Theorem C7_prefix_handling :
  rallyToMcp (JObj [("_ref", JStr "X")]) = JObj [("metadata-ref", JStr "X")]
  /\ rallyToMcp (JObj [("c_Foo", JStr "Y")]) = JObj [("custom-foo", JStr "Y")]
  /\ mcpToRally (JObj [("metadata-ref-object-uuid", JStr "Z")])
     = JObj [("_refObjectUUID", JStr "Z")]
  /\ (forall s, rallyFieldToMcp ("_" ++ s) = "metadata-" ++ camelToKebab s)
  /\ (forall s, rallyFieldToMcp ("c_" ++ s) = "custom-" ++ camelToKebab s)
  /\ (forall s, mcpFieldToRally ("metadata-" ++ s)
                = "_" ++ kebabToRallySpecialCase s)
  /\ (forall s, mcpFieldToRally ("custom-" ++ s)
                = "c_" ++ kebabToRallySpecialCase s)
  /\ (forall s, mcpFieldToRally (rallyFieldToMcp ("_" ++ s))
                = "_" ++ kebabToRallySpecialCase (camelToKebab s))
  /\ (forall s, mcpFieldToRally (rallyFieldToMcp ("c_" ++ s))
                = "c_" ++ kebabToRallySpecialCase (camelToKebab s))
  /\ ownEntry "custom-priority" specialCases = Some "CustomPriority"
  /\ mcpFieldToRally "custom-priority" = "c_Priority".
Proof.
  do 3 (split; [vm_compute; reflexivity|]).
  split; [exact rallyFieldToMcp_metadata|].
  split; [exact rallyFieldToMcp_custom|].
  split; [exact mcpFieldToRally_metadata|].
  split; [exact mcpFieldToRally_custom|].
  split.
  { intros s. rewrite rallyFieldToMcp_metadata. apply mcpFieldToRally_metadata. }
  split.
  { intros s. rewrite rallyFieldToMcp_custom. apply mcpFieldToRally_custom. }
  split; vm_compute; reflexivity.
Qed.

(** C8.  [APIIntegration] becomes [api-integration]: the first rule puts
    the dash before the last capital of the run, the second finds nothing
    more to split; and [api-integration] goes back to [APIIntegration]
    through the table, where the generic reconstruction would give
    [ApiIntegration]. *)
Theorem C8_acronym_handling :
  rallyFieldToMcp "APIIntegration" = "api-integration"
  /\ matchAcronym "APIIntegration" = Some ("API", "In", "tegration")
  /\ replaceAcronym "APIIntegration" = "API-Integration"
  /\ replaceBoundary "API-Integration" = "API-Integration"
  /\ replaceBoundary "APIIntegration" = "APIIntegration"
  /\ mcpFieldToRally "api-integration" = "APIIntegration"
  /\ mcpFieldToRally "api-integration" <> "ApiIntegration"
  /\ ownEntry "api-integration" specialCases = Some "APIIntegration"
  /\ kebabToPascal "api-integration" = "ApiIntegration".
Proof.
  repeat split; try (vm_compute; reflexivity).
  vm_compute. discriminate.
Qed.

(** C10.  [mcpFieldToRally] is not injective: [todo] and [to-do] both
    give [ToDo], [apiintegration] and [api-integration] both give
    [APIIntegration]; so two different internal records can have the same
    external record. *)
Theorem C10_mcpFieldToRally_not_injective :
  mcpFieldToRally "todo" = "ToDo"
  /\ mcpFieldToRally "to-do" = "ToDo"
  /\ mcpFieldToRally "apiintegration" = "APIIntegration"
  /\ mcpFieldToRally "api-integration" = "APIIntegration"
  /\ ~ (forall a b, mcpFieldToRally a = mcpFieldToRally b -> a = b)
  /\ (exists r1 r2, r1 <> r2 /\ mcpToRally r1 = mcpToRally r2
                    /\ mcpToRally r1 = JObj [("ToDo", JNum 2)]).
Proof.
  do 4 (split; [vm_compute; reflexivity|]).
  split.
  - intros H. specialize (H "todo" "to-do" eq_refl). discriminate H.
  - exists (JObj [("todo", JNum 2)]), (JObj [("to-do", JNum 2)]).
    split; [discriminate|]. split; vm_compute; reflexivity.
Qed.

(** *** Characters *)

Lemma bothBooleans_spec f : bothBooleans f = true -> forall b, f b = true.
Proof.
  unfold bothBooleans. intros H b.
  apply andb_true_iff in H. destruct H, b; assumption.
Qed.

Lemma everyCharacter_spec f :
  everyCharacter f = true -> forall c, f c = true.
Proof.
  unfold everyCharacter. intros H [b0 b1 b2 b3 b4 b5 b6 b7].
  pose proof (bothBooleans_spec _ H b0) as H0. cbv beta in H0.
  pose proof (bothBooleans_spec _ H0 b1) as H1. cbv beta in H1.
  pose proof (bothBooleans_spec _ H1 b2) as H2. cbv beta in H2.
  pose proof (bothBooleans_spec _ H2 b3) as H3. cbv beta in H3.
  pose proof (bothBooleans_spec _ H3 b4) as H4. cbv beta in H4.
  pose proof (bothBooleans_spec _ H4 b5) as H5. cbv beta in H5.
  pose proof (bothBooleans_spec _ H5 b6) as H6. cbv beta in H6.
  exact (bothBooleans_spec _ H6 b7).
Qed.

Ltac check_characters f c :=
  let H := fresh "H" in
  assert (H : everyCharacter f = true) by (vm_compute; reflexivity);
  apply everyCharacter_spec with (c := c) in H; cbv beta in H.

Lemma lower_not_upper c : isLower c = true -> isUpper c = false.
Proof.
  check_characters (fun c => implb (isLower c) (negb (isUpper c))) c.
  destruct (isLower c), (isUpper c); simpl in *; congruence.
Qed.

Lemma lower_upper_lower c :
  isLower c = true -> charToLower (charToUpper c) = c.
Proof.
  check_characters
    (fun c => implb (isLower c) (charToLower (charToUpper c) =? c)%char) c.
  intros L. rewrite L in H. apply Ascii.eqb_eq. exact H.
Qed.

Lemma upper_of_lower c : isLower c = true -> isUpper (charToUpper c) = true.
Proof.
  check_characters (fun c => implb (isLower c) (isUpper (charToUpper c))) c.
  intros L. rewrite L in H. exact H.
Qed.

Lemma plain_not_upper c :
  isLower c || isDigit c = true -> isUpper c = false.
Proof.
  check_characters
    (fun c => implb (isLower c || isDigit c) (negb (isUpper c))) c.
  intros L. rewrite L in H. destruct (isUpper c); simpl in *; congruence.
Qed.

Lemma plain_toLower c : isLower c || isDigit c = true -> charToLower c = c.
Proof.
  check_characters
    (fun c => implb (isLower c || isDigit c) (charToLower c =? c)%char) c.
  intros L. rewrite L in H. apply Ascii.eqb_eq. exact H.
Qed.

Lemma plain_not_dash c :
  isLower c || isDigit c = true -> (c =? "-")%char = false.
Proof.
  check_characters
    (fun c => implb (isLower c || isDigit c) (negb (c =? "-")%char)) c.
  intros L. rewrite L in H.
  destruct (c =? "-")%char; simpl in *; congruence.
Qed.

Lemma upper_not_plain c :
  isUpper c = true -> isLower c || isDigit c = false.
Proof.
  check_characters
    (fun c => implb (isUpper c) (negb (isLower c || isDigit c))) c.
  intros L. rewrite L in H.
  destruct (isLower c || isDigit c); simpl in *; congruence.
Qed.

Lemma upper_not_marker c :
  isUpper c = true -> ("_" =? c)%char = false /\ ("c" =? c)%char = false.
Proof.
  check_characters
    (fun c => implb (isUpper c)
                (negb ("_" =? c)%char && negb ("c" =? c)%char)) c.
  intros L. rewrite L in H.
  destruct ("_" =? c)%char, ("c" =? c)%char; simpl in *; auto; congruence.
Qed.

(** *** Strings *)

Lemma append_empty s : s ++ "" = s.
Proof. induction s as [|c s IH]; simpl; [|rewrite IH]; reflexivity. Qed.

Lemma append_associative s t u : (s ++ t) ++ u = s ++ (t ++ u).
Proof. induction s as [|c s IH]; simpl; [|rewrite IH]; reflexivity. Qed.

Lemma toLowerCase_append s t :
  toLowerCase (s ++ t) = toLowerCase s ++ toLowerCase t.
Proof. induction s as [|c s IH]; simpl; [|rewrite IH]; reflexivity. Qed.

Lemma toLowerCase_plain s :
  allLowerOrDigit s = true -> toLowerCase s = s.
Proof.
  induction s as [|c s IH]; simpl; [reflexivity|].
  intros H. apply andb_true_iff in H. destruct H as [Hc Hs].
  rewrite (plain_toLower c Hc), (IH Hs). reflexivity.
Qed.

(** *** The shape of a word and of the two spellings *)

Lemma isWord_shape w :
  isWord w = true ->
  exists a b r,
    w = String a (String b r)
    /\ isLower a = true
    /\ allLowerOrDigit (String b r) = true.
Proof.
  destruct w as [|a [|b r]]; simpl; try discriminate.
  intros H. apply andb_true_iff in H. destruct H as [Ha Hr].
  exists a, b, r. auto.
Qed.

Lemma kebabOf_cons w ws : kebabOf (w :: ws) = w ++ dashedWords ws.
Proof.
  unfold kebabOf. revert w.
  induction ws as [|v ws IH]; intros w.
  - simpl. symmetry. apply append_empty.
  - change (String.concat "-" (w :: v :: ws))
      with (w ++ "-" ++ String.concat "-" (v :: ws)).
    rewrite IH. reflexivity.
Qed.

Lemma pascalOf_cons w ws : pascalOf (w :: ws) = capitalize w ++ pascalOf ws.
Proof.
  unfold pascalOf. destruct ws as [|v ws].
  - simpl. symmetry. apply append_empty.
  - reflexivity.
Qed.

(** *** Rule (1) finds nothing where no two capitals are adjacent *)

Lemma noUpperPair_cons a b t :
  noUpperPair (String a (String b t))
  = negb (isUpper a && isUpper b) && noUpperPair (String b t).
Proof. reflexivity. Qed.

Lemma noUpperPair_tail c s :
  noUpperPair (String c s) = true -> noUpperPair s = true.
Proof.
  destruct s as [|b r]; [reflexivity|]. simpl.
  intros H. apply andb_true_iff in H. apply H.
Qed.

Lemma matchAcronym_none s : noUpperPair s = true -> matchAcronym s = None.
Proof.
  unfold matchAcronym. destruct s as [|a [|b r]]; simpl.
  - reflexivity.
  - destruct (isUpper a); reflexivity.
  - intros H. apply andb_true_iff in H. destruct H as [H _].
    destruct (isUpper a); [|reflexivity].
    simpl in H. apply negb_true_iff in H. rewrite H. simpl.
    destruct r; simpl; rewrite ?H; reflexivity.
Qed.

Lemma replaceAcronymFrom_unchanged fuel s :
  noUpperPair s = true -> replaceAcronymFrom fuel s = s.
Proof.
  revert s. induction fuel as [|fuel IH]; intros s H; simpl; [reflexivity|].
  rewrite (matchAcronym_none s H).
  destruct s as [|c r]; [reflexivity|].
  rewrite (IH r (noUpperPair_tail c r H)). reflexivity.
Qed.

Lemma noUpperPair_plain_append r t :
  allLowerOrDigit r = true -> noUpperPair t = true ->
  noUpperPair (r ++ t) = true.
Proof.
  induction r as [|c r IH]; simpl; intros Hr Ht; [exact Ht|].
  apply andb_true_iff in Hr. destruct Hr as [Hc Hr].
  specialize (IH Hr Ht).
  destruct (r ++ t) as [|x y]; [reflexivity|].
  rewrite (plain_not_upper c Hc). simpl. exact IH.
Qed.

Lemma noUpperPair_pascalOf ws :
  forallb isWord ws = true -> noUpperPair (pascalOf ws) = true.
Proof.
  induction ws as [|w ws IH]; intros H; [reflexivity|].
  simpl in H. apply andb_true_iff in H. destruct H as [Hw Hws].
  destruct (isWord_shape w Hw) as (a & b & r & -> & Ha & Hr).
  rewrite pascalOf_cons.
  change (capitalize (String a (String b r)) ++ pascalOf ws)
    with (String (charToUpper a) (String b r ++ pascalOf ws)).
  pose proof (noUpperPair_plain_append _ _ Hr (IH Hws)) as Hp.
  simpl in Hr. apply andb_true_iff in Hr. destruct Hr as [Hb _].
  change (String b r ++ pascalOf ws) with (String b (r ++ pascalOf ws)) in *.
  rewrite noUpperPair_cons, Hp, (plain_not_upper b Hb), andb_false_r.
  reflexivity.
Qed.

(** *** The step bound of rule (1) is never reached *)

Lemma substringFrom_length k s :
  String.length (substringFrom k s) <= String.length s.
Proof.
  revert s. induction k as [|k IH]; intros s; [simpl; lia|].
  destruct s as [|c s]; simpl; [lia|]. specialize (IH s). lia.
Qed.

Lemma acronymBacktrack_shorter k s g1 g2 rest :
  acronymBacktrack k s = Some (g1, g2, rest) ->
  String.length rest < String.length s.
Proof.
  induction k as [|k IH]; [discriminate|].
  cbn [acronymBacktrack].
  pose proof (substringFrom_length (S k) s) as L.
  destruct (substringFrom (S k) s) as [|a [|b t]]; try exact IH.
  destruct (isUpper a && isLower b); [|exact IH].
  intros H. injection H as _ _ <-. simpl in L. lia.
Qed.

(** Any bound that is at least the length gives the same result: the
    replacement always runs to the end of the string. *)
Lemma replaceAcronymFrom_enough fuel1 :
  forall fuel2 s,
    String.length s <= fuel1 ->
    String.length s <= fuel2 ->
    replaceAcronymFrom fuel1 s = replaceAcronymFrom fuel2 s.
Proof.
  induction fuel1 as [|fuel1 IH]; intros fuel2 s L1 L2.
  - destruct s; [|simpl in L1; lia]. destruct fuel2; reflexivity.
  - destruct fuel2 as [|fuel2].
    + destruct s; [reflexivity | simpl in L2; lia].
    + cbn [replaceAcronymFrom].
      destruct (matchAcronym s) as [[[g1 g2] rest]|] eqn:M.
      * apply acronymBacktrack_shorter in M.
        rewrite (IH fuel2 rest) by lia. reflexivity.
      * destruct s as [|c r]; [reflexivity|].
        simpl in L1, L2. rewrite (IH fuel2 r) by lia. reflexivity.
Qed.

(** *** Rule (1) splits a run of capitals before its last one *)

Lemma substringFrom_append run t :
  substringFrom (String.length run) (run ++ t) = t.
Proof. induction run as [|c run IH]; simpl; [destruct t|]; auto. Qed.

Lemma substringTo_append run t :
  substringTo (String.length run) (run ++ t) = run.
Proof.
  induction run as [|c run IH]; simpl; [destruct t; reflexivity|].
  rewrite IH. reflexivity.
Qed.

Lemma upperRun_append run t :
  allUpper run = true ->
  upperRun (run ++ t) = String.length run + upperRun t.
Proof.
  induction run as [|c run IH]; simpl; intros H; [reflexivity|].
  apply andb_true_iff in H. destruct H as [Hc Hr].
  rewrite Hc, (IH Hr). reflexivity.
Qed.

Lemma acronymBacktrack_step k s :
  acronymBacktrack (S k) s
  = match substringFrom (S k) s with
    | String a (String b rest) =>
        if isUpper a && isLower b
        then Some (substringTo (S k) s, String a (String b ""), rest)
        else acronymBacktrack k s
    | _ => acronymBacktrack k s
    end.
Proof. reflexivity. Qed.

(** A run of capitals, then a capital and a lower-case letter: the match
    starts with the run, group 1 is the run and group 2 the two letters
    that follow, whatever comes after. *)
Lemma acronym_split_before_last_capital run U l rest :
  run <> "" ->
  allUpper run = true ->
  isUpper U = true ->
  isLower l = true ->
  matchAcronym (run ++ String U (String l rest))
  = Some (run, String U (String l ""), rest).
Proof.
  intros Hne Hrun HU Hl. unfold matchAcronym.
  rewrite (upperRun_append _ _ Hrun).
  cbn [upperRun]. rewrite HU, (lower_not_upper l Hl).
  replace (String.length run + 1) with (S (String.length run)) by lia.
  assert (Back : acronymBacktrack (String.length run)
                   (run ++ String U (String l rest))
                 = Some (run, String U (String l ""), rest)).
  { destruct run as [|c run]; [congruence|].
    change (String.length (String c run)) with (S (String.length run)).
    rewrite acronymBacktrack_step.
    change (S (String.length run)) with (String.length (String c run)).
    rewrite substringFrom_append, substringTo_append, HU, Hl. reflexivity. }
  rewrite acronymBacktrack_step.
  assert (E : substringFrom (S (String.length run))
                (run ++ String U (String l rest)) = String l rest).
  { clear. induction run as [|c run IH]; [reflexivity|]. exact IH. }
  rewrite E.
  destruct rest as [|b rest']; [exact Back|].
  rewrite (lower_not_upper l Hl). exact Back.
Qed.

(** *** Rule (2) puts a dash before the capital of every later word *)

Lemma replaceBoundary_split a b rest :
  (isLower a || isDigit a) && isUpper b = true ->
  replaceBoundary (String a (String b rest))
  = String a (String "-" (String b (replaceBoundary rest))).
Proof. intros H. cbn [replaceBoundary]. rewrite H. reflexivity. Qed.

Lemma replaceBoundary_skip a b rest :
  (isLower a || isDigit a) && isUpper b = false ->
  replaceBoundary (String a (String b rest))
  = String a (replaceBoundary (String b rest)).
Proof. intros H. cbn [replaceBoundary]. rewrite H. reflexivity. Qed.

Lemma replaceBoundary_plain r :
  allLowerOrDigit r = true -> replaceBoundary r = r.
Proof.
  induction r as [|c r IH]; [reflexivity|].
  intros H. simpl in H. apply andb_true_iff in H. destruct H as [_ Hr].
  specialize (IH Hr). destruct r as [|b r']; [reflexivity|].
  simpl in Hr. apply andb_true_iff in Hr. destruct Hr as [Hb _].
  rewrite replaceBoundary_skip, IH; [reflexivity|].
  rewrite (plain_not_upper b Hb). apply andb_false_r.
Qed.

Lemma replaceBoundary_words ws :
  forallb isWord ws = true ->
  forall r,
    r <> "" -> allLowerOrDigit r = true ->
    replaceBoundary (r ++ pascalOf ws) = r ++ dashedCapitals ws.
Proof.
  induction ws as [|w ws IH]; intros H r.
  - intros _ Hr. change (pascalOf []) with "". simpl dashedCapitals.
    rewrite append_empty. apply replaceBoundary_plain. exact Hr.
  - simpl in H. apply andb_true_iff in H. destruct H as [Hw Hws].
    destruct (isWord_shape w Hw) as (a & b & rw & -> & Ha & Hrw).
    rewrite pascalOf_cons.
    change (capitalize (String a (String b rw)) ++ pascalOf ws)
      with (String (charToUpper a) (String b rw ++ pascalOf ws)).
    induction r as [|c r IHr]; intros Hne Hr; [congruence|].
    simpl in Hr. apply andb_true_iff in Hr. destruct Hr as [Hc Hr].
    destruct r as [|c' r'].
    + change (String c "" ++ String (charToUpper a) (String b rw ++ pascalOf ws))
        with (String c (String (charToUpper a) (String b rw ++ pascalOf ws))).
      rewrite replaceBoundary_split
        by (rewrite Hc, (upper_of_lower a Ha); reflexivity).
      rewrite (IH Hws (String b rw)); [reflexivity | discriminate | exact Hrw].
    + pose proof Hr as Hr'. simpl in Hr'.
      apply andb_true_iff in Hr'. destruct Hr' as [Hc' _].
      change (String c (String c' r') ++ String (charToUpper a) (String b rw ++ pascalOf ws))
        with (String c (String c' (r' ++ String (charToUpper a) (String b rw ++ pascalOf ws)))).
      rewrite replaceBoundary_skip
        by (rewrite (plain_not_upper c' Hc'); apply andb_false_r).
      change (String c' (r' ++ String (charToUpper a) (String b rw ++ pascalOf ws)))
        with (String c' r' ++ String (charToUpper a) (String b rw ++ pascalOf ws)).
      rewrite IHr; [reflexivity | discriminate | exact Hr].
Qed.

Lemma replaceBoundary_pascalOf w ws :
  forallb isWord (w :: ws) = true ->
  replaceBoundary (pascalOf (w :: ws)) = capitalize w ++ dashedCapitals ws.
Proof.
  intros H. simpl in H. apply andb_true_iff in H. destruct H as [Hw Hws].
  destruct (isWord_shape w Hw) as (a & b & rw & -> & Ha & Hrw).
  rewrite pascalOf_cons.
  change (capitalize (String a (String b rw)) ++ pascalOf ws)
    with (String (charToUpper a) (String b (rw ++ pascalOf ws))).
  rewrite replaceBoundary_skip
    by (rewrite (upper_not_plain _ (upper_of_lower a Ha)); reflexivity).
  change (String b (rw ++ pascalOf ws)) with (String b rw ++ pascalOf ws).
  rewrite (replaceBoundary_words ws Hws (String b rw));
    [reflexivity | discriminate | exact Hrw].
Qed.

(** *** Lower case gives the words back *)

Lemma toLowerCase_dashedCapitals ws :
  forallb isWord ws = true ->
  toLowerCase (dashedCapitals ws) = dashedWords ws.
Proof.
  induction ws as [|w ws IH]; intros H; [reflexivity|].
  simpl in H. apply andb_true_iff in H. destruct H as [Hw Hws].
  destruct (isWord_shape w Hw) as (a & b & rw & -> & Ha & Hrw).
  cbn [dashedCapitals dashedWords].
  rewrite !toLowerCase_append, (IH Hws).
  cbn [capitalize toLowerCase].
  rewrite (lower_upper_lower a Ha).
  change (toLowerCase (String b rw)) with (String (charToLower b) (toLowerCase rw))
    in *.
  pose proof (toLowerCase_plain _ Hrw) as E. cbn [toLowerCase] in E.
  rewrite E. reflexivity.
Qed.

Lemma toLowerCase_capitalize w :
  isWord w = true -> toLowerCase (capitalize w) = w.
Proof.
  intros Hw. destruct (isWord_shape w Hw) as (a & b & rw & -> & Ha & Hrw).
  cbn [capitalize toLowerCase]. rewrite (lower_upper_lower a Ha).
  pose proof (toLowerCase_plain _ Hrw) as E. cbn [toLowerCase] in E.
  rewrite E. reflexivity.
Qed.

(** The external spelling of a list of words is turned into their
    internal spelling. *)
Lemma camelToKebab_pascalOf ws :
  forallb isWord ws = true -> camelToKebab (pascalOf ws) = kebabOf ws.
Proof.
  intros H. unfold camelToKebab, replaceAcronym.
  rewrite (replaceAcronymFrom_unchanged _ _ (noUpperPair_pascalOf ws H)).
  destruct ws as [|w ws]; [reflexivity|].
  rewrite (replaceBoundary_pascalOf w ws H), kebabOf_cons, toLowerCase_append.
  simpl in H. apply andb_true_iff in H. destruct H as [Hw Hws].
  rewrite (toLowerCase_capitalize w Hw), (toLowerCase_dashedCapitals ws Hws).
  reflexivity.
Qed.

(** *** From the internal spelling back to the external one *)

Lemma toLowerCase_dashedWords ws :
  forallb isWord ws = true -> toLowerCase (dashedWords ws) = dashedWords ws.
Proof.
  induction ws as [|w ws IH]; intros H; [reflexivity|].
  simpl in H. apply andb_true_iff in H. destruct H as [Hw Hws].
  destruct (isWord_shape w Hw) as (a & b & rw & -> & Ha & Hrw).
  cbn [dashedWords]. rewrite !toLowerCase_append, (IH Hws).
  assert (Hp : allLowerOrDigit (String a (String b rw)) = true).
  { change (allLowerOrDigit (String a (String b rw)))
      with ((isLower a || isDigit a) && allLowerOrDigit (String b rw)).
    rewrite Ha, Hrw. reflexivity. }
  rewrite (toLowerCase_plain _ Hp). reflexivity.
Qed.

Lemma isWord_plain w : isWord w = true -> allLowerOrDigit w = true.
Proof.
  intros Hw. destruct (isWord_shape w Hw) as (a & b & rw & -> & Ha & Hrw).
  change (allLowerOrDigit (String a (String b rw)))
    with ((isLower a || isDigit a) && allLowerOrDigit (String b rw)).
  rewrite Ha, Hrw. reflexivity.
Qed.

Lemma replaceDashLetter_join b rest :
  isLower b = true ->
  replaceDashLetter (String "-" (String b rest))
  = String (charToUpper b) (replaceDashLetter rest).
Proof. intros H. cbn [replaceDashLetter]. rewrite H. reflexivity. Qed.

Lemma replaceDashLetter_skip a b rest :
  (a =? "-")%char = false ->
  replaceDashLetter (String a (String b rest))
  = String a (replaceDashLetter (String b rest)).
Proof. intros H. cbn [replaceDashLetter]. rewrite H. reflexivity. Qed.

Lemma replaceDashLetter_plain r :
  allLowerOrDigit r = true -> replaceDashLetter r = r.
Proof.
  induction r as [|c r IH]; [reflexivity|].
  intros H. simpl in H. apply andb_true_iff in H. destruct H as [Hc Hr].
  specialize (IH Hr). destruct r as [|b r']; [reflexivity|].
  rewrite replaceDashLetter_skip, IH;
    [reflexivity | apply plain_not_dash; exact Hc].
Qed.

Lemma replaceDashLetter_words ws :
  forallb isWord ws = true ->
  forall r,
    allLowerOrDigit r = true ->
    replaceDashLetter (r ++ dashedWords ws) = r ++ pascalOf ws.
Proof.
  induction ws as [|w ws IH]; intros H r Hr.
  - change (pascalOf []) with "". simpl dashedWords.
    rewrite append_empty. apply replaceDashLetter_plain. exact Hr.
  - simpl in H. apply andb_true_iff in H. destruct H as [Hw Hws].
    destruct (isWord_shape w Hw) as (a & b & rw & -> & Ha & Hrw).
    rewrite pascalOf_cons.
    change (dashedWords (String a (String b rw) :: ws))
      with (String "-" (String a (String b rw ++ dashedWords ws))).
    change (capitalize (String a (String b rw)) ++ pascalOf ws)
      with (String (charToUpper a) (String b rw ++ pascalOf ws)).
    induction r as [|c r IHr].
    + change ("" ++ ?t) with t.
      rewrite (replaceDashLetter_join a _ Ha).
      rewrite (IH Hws (String b rw) Hrw). reflexivity.
    + simpl in Hr. apply andb_true_iff in Hr. destruct Hr as [Hc Hr].
      specialize (IHr Hr).
      change (String c r ++ ?t) with (String c (r ++ t)).
      destruct (r ++ String "-" (String a (String b rw ++ dashedWords ws)))
        as [|x y] eqn:E.
      * destruct r; discriminate E.
      * rewrite (replaceDashLetter_skip c x y (plain_not_dash c Hc)).
        rewrite IHr. reflexivity.
Qed.

Lemma kebabOf_lower ws :
  forallb isWord ws = true -> toLowerCase (kebabOf ws) = kebabOf ws.
Proof.
  destruct ws as [|w ws]; intros H; [reflexivity|].
  rewrite kebabOf_cons, toLowerCase_append.
  simpl in H. apply andb_true_iff in H. destruct H as [Hw Hws].
  rewrite (toLowerCase_plain w (isWord_plain w Hw)).
  rewrite (toLowerCase_dashedWords ws Hws). reflexivity.
Qed.

(** The internal spelling of a list of words is turned into their
    external spelling by the generic reconstruction. *)
Lemma kebabToPascal_kebabOf ws :
  forallb isWord ws = true -> kebabToPascal (kebabOf ws) = pascalOf ws.
Proof.
  intros H. unfold kebabToPascal, kebabToCamel.
  rewrite (kebabOf_lower ws H).
  destruct ws as [|w ws]; [reflexivity|].
  rewrite kebabOf_cons, pascalOf_cons.
  simpl in H. apply andb_true_iff in H. destruct H as [Hw Hws].
  rewrite (replaceDashLetter_words ws Hws w (isWord_plain w Hw)).
  destruct (isWord_shape w Hw) as (a & b & rw & -> & Ha & Hrw).
  reflexivity.
Qed.

(** *** Round trips *)

Lemma pascalOf_unmarked ws :
  forallb isWord ws = true ->
  rallyFieldToMcp (pascalOf ws) = camelToKebab (pascalOf ws).
Proof.
  destruct ws as [|w ws]; intros H; [reflexivity|].
  simpl in H. apply andb_true_iff in H. destruct H as [Hw _].
  destruct (isWord_shape w Hw) as (a & b & rw & -> & Ha & _).
  rewrite pascalOf_cons.
  change (capitalize (String a (String b rw)) ++ pascalOf ws)
    with (String (charToUpper a) (String b rw ++ pascalOf ws)).
  destruct (upper_not_marker _ (upper_of_lower a Ha)) as [H1 H2].
  unfold rallyFieldToMcp. cbn [startsWith]. rewrite H1, H2. reflexivity.
Qed.

Lemma kebabToRallySpecialCase_regular ws :
  forallb isWord ws = true ->
  specialCaseLookup (kebabOf ws) = None ->
  kebabToRallySpecialCase (kebabOf ws) = pascalOf ws.
Proof.
  intros H L. unfold kebabToRallySpecialCase. rewrite L.
  apply kebabToPascal_kebabOf. exact H.
Qed.

Ltac table_entry H :=
  repeat (destruct H as [H|H];
          [injection H as <- <-; repeat split;
           try (vm_compute; reflexivity);
           try (intros; exfalso; congruence) |]);
  try contradiction.

Lemma table_keys_round_trip k v :
  In (k, v) specialCases ->
  k <> "todo" -> k <> "apiintegration" ->
  rallyFieldToMcp (mcpFieldToRally k) = k
  /\ rallyFieldToMcp (mcpFieldToRally ("metadata-" ++ k)) = "metadata-" ++ k
  /\ rallyFieldToMcp (mcpFieldToRally ("custom-" ++ k)) = "custom-" ++ k.
Proof.
  intros H A B. simpl in H. table_entry H.
Qed.

Lemma table_values_round_trip k v :
  In (k, v) specialCases ->
  (v <> "CustomPriority" -> mcpFieldToRally (rallyFieldToMcp v) = v)
  /\ mcpFieldToRally (rallyFieldToMcp ("_" ++ v)) = "_" ++ v
  /\ mcpFieldToRally (rallyFieldToMcp ("c_" ++ v)) = "c_" ++ v.
Proof.
  intros H. simpl in H. table_entry H.
Qed.

Lemma regular_names_round_trip ws :
  forallb isWord ws = true ->
  specialCaseLookup (kebabOf ws) = None ->
  (startsWith "metadata-" (kebabOf ws) = false ->
   startsWith "custom-" (kebabOf ws) = false ->
   mcpFieldToRally (rallyFieldToMcp (pascalOf ws)) = pascalOf ws
   /\ rallyFieldToMcp (mcpFieldToRally (kebabOf ws)) = kebabOf ws)
  /\ mcpFieldToRally (rallyFieldToMcp ("_" ++ pascalOf ws))
     = "_" ++ pascalOf ws
  /\ mcpFieldToRally (rallyFieldToMcp ("c_" ++ pascalOf ws))
     = "c_" ++ pascalOf ws
  /\ rallyFieldToMcp (mcpFieldToRally ("metadata-" ++ kebabOf ws))
     = "metadata-" ++ kebabOf ws
  /\ rallyFieldToMcp (mcpFieldToRally ("custom-" ++ kebabOf ws))
     = "custom-" ++ kebabOf ws.
Proof.
  intros H L.
  pose proof (camelToKebab_pascalOf ws H) as K.
  pose proof (kebabToRallySpecialCase_regular ws H L) as P.
  split; [intros M C; split|repeat split].
  - rewrite (pascalOf_unmarked ws H), K.
    unfold mcpFieldToRally. rewrite M, C. exact P.
  - unfold mcpFieldToRally. rewrite M, C, P.
    rewrite (pascalOf_unmarked ws H). exact K.
  - rewrite rallyFieldToMcp_metadata, K, mcpFieldToRally_metadata, P.
    reflexivity.
  - rewrite rallyFieldToMcp_custom, K, mcpFieldToRally_custom, P.
    reflexivity.
  - rewrite mcpFieldToRally_metadata, P, rallyFieldToMcp_metadata, K.
    reflexivity.
  - rewrite mcpFieldToRally_custom, P, rallyFieldToMcp_custom, K.
    reflexivity.
Qed.

(** C2, counterexample.  [todo] is a key of the table; it goes to [ToDo]
    and comes back as [to-do].  [CustomPriority] is a value of the table;
    it goes to [custom-priority], which is read back as a custom field.
    [MyHTMLField], a name outside the table, comes back as
    [MyHtmlField]. *)
Lemma C2_round_trip_fails :
  In "todo" (map fst specialCases)
  /\ rallyFieldToMcp (mcpFieldToRally "todo") = "to-do"
  /\ rallyFieldToMcp (mcpFieldToRally "todo") <> "todo"
  /\ In "CustomPriority" (map snd specialCases)
  /\ mcpFieldToRally (rallyFieldToMcp "CustomPriority") = "c_Priority"
  /\ mcpFieldToRally (rallyFieldToMcp "CustomPriority") <> "CustomPriority"
  /\ mcpFieldToRally (rallyFieldToMcp "MyHTMLField") = "MyHtmlField"
  /\ mcpFieldToRally (rallyFieldToMcp "MyHTMLField") <> "MyHTMLField".
Proof.
  split; [simpl; tauto|].
  split; [vm_compute; reflexivity|].
  split; [vm_compute; discriminate|].
  split; [simpl; tauto|].
  split; [vm_compute; reflexivity|].
  split; [vm_compute; discriminate|].
  split; [vm_compute; reflexivity|].
  vm_compute; discriminate.
Qed.

(** C2, amended.  Going forth and back gives the name back
    - for every key of the table except the two aliases [todo] and
      [apiintegration], also under the [metadata-] and [custom-] prefixes;
    - for every value of the table, except that the bare
      [CustomPriority] is read back as a custom field, also under the
      [_] and [c_] markers;
    - for every name made of words (a letter followed by at least one
      letter or digit; capitalised and joined in the external spelling,
      lower case and joined by dashes in the internal one) whose internal
      spelling has no entry in the table: under the markers and prefixes
      always, and without them when the internal spelling does not itself
      begin with [metadata-] or [custom-]. *)
Theorem C2_round_trip_on_table_and_regular_names :
  (forall k v,
     In (k, v) specialCases ->
     k <> "todo" -> k <> "apiintegration" ->
     rallyFieldToMcp (mcpFieldToRally k) = k
     /\ rallyFieldToMcp (mcpFieldToRally ("metadata-" ++ k)) = "metadata-" ++ k
     /\ rallyFieldToMcp (mcpFieldToRally ("custom-" ++ k)) = "custom-" ++ k)
  /\ (forall k v,
        In (k, v) specialCases ->
        (v <> "CustomPriority" -> mcpFieldToRally (rallyFieldToMcp v) = v)
        /\ mcpFieldToRally (rallyFieldToMcp ("_" ++ v)) = "_" ++ v
        /\ mcpFieldToRally (rallyFieldToMcp ("c_" ++ v)) = "c_" ++ v)
  /\ (forall ws,
        forallb isWord ws = true ->
        specialCaseLookup (kebabOf ws) = None ->
        (startsWith "metadata-" (kebabOf ws) = false ->
         startsWith "custom-" (kebabOf ws) = false ->
         mcpFieldToRally (rallyFieldToMcp (pascalOf ws)) = pascalOf ws
         /\ rallyFieldToMcp (mcpFieldToRally (kebabOf ws)) = kebabOf ws)
        /\ mcpFieldToRally (rallyFieldToMcp ("_" ++ pascalOf ws))
           = "_" ++ pascalOf ws
        /\ mcpFieldToRally (rallyFieldToMcp ("c_" ++ pascalOf ws))
           = "c_" ++ pascalOf ws
        /\ rallyFieldToMcp (mcpFieldToRally ("metadata-" ++ kebabOf ws))
           = "metadata-" ++ kebabOf ws
        /\ rallyFieldToMcp (mcpFieldToRally ("custom-" ++ kebabOf ws))
           = "custom-" ++ kebabOf ws).
Proof.
  split; [exact table_keys_round_trip|].
  split; [exact table_values_round_trip|].
  exact regular_names_round_trip.
Qed.

(** The amended C2 at a table entry and at two names outside the table. *)
Lemma C2_round_trip_on_table_and_regular_names_witness :
  rallyFieldToMcp (mcpFieldToRally "formatted-id") = "formatted-id"
  /\ mcpFieldToRally (rallyFieldToMcp "FormattedID") = "FormattedID"
  /\ mcpFieldToRally (rallyFieldToMcp "UserName") = "UserName"
  /\ rallyFieldToMcp (mcpFieldToRally "user-name") = "user-name"
  /\ mcpFieldToRally (rallyFieldToMcp "c_ReproductionSteps")
     = "c_ReproductionSteps".
Proof.
  destruct C2_round_trip_on_table_and_regular_names as (K & V & W).
  split.
  { apply (K "formatted-id" "FormattedID"); [simpl; tauto | | ]; discriminate. }
  split.
  { apply (V "formatted-id" "FormattedID"); [simpl; tauto | discriminate]. }
  destruct (W ["user"; "name"] eq_refl eq_refl) as (U & _).
  destruct (U eq_refl eq_refl) as (U1 & U2).
  split; [exact U1|]. split; [exact U2|].
  destruct (W ["reproduction"; "steps"] eq_refl eq_refl) as (_ & _ & C & _).
  exact C.
Defined.

End TransformerSpec.

(* ================================================================== *)
(** ** Properties of the walk over records *)
(* ================================================================== *)

Module StoreSpec.
Import Js Store.

(** *** Stores *)

Lemma preserved_refl h : preserved h h.
Proof. intros a c H. exact H. Qed.

Lemma preserved_trans h1 h2 h3 :
  preserved h1 h2 -> preserved h2 h3 -> preserved h1 h3.
Proof. intros A B a c H. apply B, A, H. Qed.

Lemma preserved_length h h' : preserved h h' -> List.length h <= List.length h'.
Proof.
  intros H. destruct (Nat.le_gt_cases (List.length h) (List.length h'))
    as [L|L]; [exact L|].
  destruct (nth_error h (List.length h')) as [c|] eqn:E.
  - apply H in E.
    assert (X : nth_error h' (List.length h') <> None) by congruence.
    apply nth_error_Some in X. lia.
  - apply nth_error_None in E. lia.
Qed.

Lemma preserved_allocate h c : preserved h (snd (allocate h c)).
Proof.
  intros a x H. simpl. rewrite nth_error_app1; [exact H|].
  apply nth_error_Some. congruence.
Qed.

Lemma allocate_holds h c :
  nth_error (snd (allocate h c)) (fst (allocate h c)) = Some c.
Proof.
  simpl. rewrite nth_error_app2 by lia. rewrite Nat.sub_diag. reflexivity.
Qed.

Lemma store_same h a c :
  a < List.length h -> nth_error (store h a c) a = Some c.
Proof.
  revert a. induction h as [|x h IH]; intros a L; simpl in L; [lia|].
  destruct a as [|a]; simpl; [reflexivity|]. apply IH. lia.
Qed.

Lemma store_other h a c b :
  b <> a -> nth_error (store h a c) b = nth_error h b.
Proof.
  revert a b. induction h as [|x h IH]; intros a b N; [reflexivity|].
  destruct a as [|a], b as [|b]; simpl; try reflexivity; try congruence.
  apply IH. congruence.
Qed.

(** *** The representation relation *)

Lemma Forall2_under {A B : Type} (R R' : A -> B -> Prop) xs ys :
  Forall (fun y => forall x, R x y -> R' x y) ys ->
  Forall2 R xs ys -> Forall2 R' xs ys.
Proof.
  intros F H. induction H as [|x y xs ys Hxy _ IH]; [constructor|].
  inversion F as [|? ? Fy Fys]; subst.
  constructor; [apply Fy, Hxy | apply IH, Fys].
Qed.

Lemma representsIn_change (P Q : Address -> Prop) h h' r :
  (forall a, P a -> Q a) ->
  (forall a c, P a -> nth_error h a = Some c -> nth_error h' a = Some c) ->
  forall v, representsIn P h v r -> representsIn Q h' v r.
Proof.
  intros PQ Keep.
  induction r as [| | n | s | b | items IH | entries IH] using record_ind;
    intros v Hv; inversion Hv as [| | | | | a vs rs Pa Ha Hvs
                                  | a ves es Pa Ha Hves]; subst;
    try constructor.
  - apply rep_arr with (vs := vs); [auto | eauto |].
    eapply Forall2_under; [exact IH | exact Hvs].
  - apply rep_obj with (ves := ves); [auto | eauto |].
    eapply Forall2_under; [|exact Hves].
    eapply Forall_impl; [|exact IH].
    intros [k r'] IHr [k' v'] [E R]. split; [exact E | apply IHr, R].
Qed.

Lemma representsIn_frame P h h' v r :
  (forall a c, P a -> nth_error h a = Some c -> nth_error h' a = Some c) ->
  representsIn P h v r -> representsIn P h' v r.
Proof. intros K. apply representsIn_change; auto. Qed.

Lemma representsIn_weaken (P Q : Address -> Prop) h v r :
  (forall a, P a -> Q a) ->
  representsIn P h v r -> representsIn Q h v r.
Proof. intros PQ. apply representsIn_change; auto. Qed.

Lemma represents_preserved h h' v r :
  preserved h h' -> represents h v r -> represents h' v r.
Proof. intros K. apply representsIn_frame. intros a c _. apply K. Qed.

(** *** Depth *)

Lemma depth_of_items items n :
  depth (JArr items) < S n -> Forall (fun r => depth r < n) items.
Proof.
  simpl. intros H. apply PeanoNat.lt_S_n in H.
  induction items as [|x items IH]; constructor; simpl in H; [lia|].
  apply IH. lia.
Qed.

Lemma depth_of_entries entries n :
  depth (JObj entries) < S n ->
  Forall (fun kv => depth (snd kv) < n) entries.
Proof.
  simpl. intros H. apply PeanoNat.lt_S_n in H.
  induction entries as [|x entries IH]; constructor; simpl in H; [lia|].
  apply IH. lia.
Qed.

(** *** Setting a property on both sides *)

Lemma setProperty_related (R : Value -> JsValue -> Prop) accv acc k v r :
  Forall2 (fun ve e => fst ve = fst e /\ R (snd ve) (snd e)) accv acc ->
  R v r ->
  Forall2 (fun ve e => fst ve = fst e /\ R (snd ve) (snd e))
          (setProperty accv k v) (setProperty acc k r).
Proof.
  intros F Hvr. unfold setProperty.
  destruct (k =? "__proto__")%string; [exact F|].
  induction F as [|[k1 v1] [k2 r2] accv acc [E Hr] F IH]; simpl.
  - constructor; [split; [reflexivity | exact Hvr] | constructor].
  - simpl in E. subst k2. destruct (k1 =? k)%string.
    + constructor; [split; [reflexivity | exact Hvr] | exact F].
    + constructor; [split; [reflexivity | exact Hr] | exact IH].
Qed.

(** *** The walk computes the pure function, in fresh cells *)

Section Refinement.
Variable fieldName : string -> string.
Variable pure : JsValue -> JsValue.

Hypothesis pure_arr :
  forall items, pure (JArr items) = JArr (map pure items).
Hypothesis pure_obj :
  forall entries,
    pure (JObj entries)
    = JObj (fold_left
              (fun transformed kv =>
                 setProperty transformed (fieldName (fst kv))
                   (pureValue pure (snd kv)))
              entries []).
Hypothesis pure_primitive :
  forall r, isObjectLike r = false -> pure r = r.

Lemma mapItems_refines fuel rs :
  Forall (refines fieldName pure fuel) rs ->
  Forall (fun r => depth r < fuel) rs ->
  forall vs h0 h1,
    Forall2 (represents h0) vs rs ->
    preserved h0 h1 ->
    exists vs' h2,
      mapItems (transform fieldName fuel) vs h1 = Some (vs', h2)
      /\ preserved h1 h2
      /\ Forall2 (representsIn (fun a => List.length h1 <= a) h2)
                 vs' (map pure rs).
Proof.
  induction rs as [|r rs IH]; intros F D vs h0 h1 R K;
    inversion R as [|v ? vs0 ? Hv Hvs]; subst.
  - exists [], h1. repeat split; [apply preserved_refl | constructor].
  - inversion F as [|? ? Fr Frs]; inversion D as [|? ? Dr Drs]; subst.
    destruct (Fr h1 v (represents_preserved _ _ _ _ K Hv) Dr)
      as (v' & h1' & E & K1 & R1).
    destruct (IH Frs Drs vs0 h0 h1' Hvs (preserved_trans _ _ _ K K1))
      as (vs' & h2 & E2 & K2 & R2).
    exists (v' :: vs'), h2. simpl. rewrite E, E2.
    split; [reflexivity|]. split; [eapply preserved_trans; eassumption|].
    constructor.
    + eapply representsIn_frame; [|exact R1]. intros a c _. apply K2.
    + eapply Forall2_impl; [|exact R2].
      intros x y. apply representsIn_weaken.
      intros a. pose proof (preserved_length _ _ K1). simpl. lia.
Qed.

Lemma value_refines fuel r h1 value target :
  refines fieldName pure fuel r ->
  depth r < fuel ->
  represents h1 value r ->
  target < List.length h1 ->
  exists v' h1',
    (if isReference value then transform fieldName fuel value h1
     else Some (value, h1)) = Some (v', h1')
    /\ preserved h1 h1'
    /\ representsIn (fun a => target < a) h1' v' (pureValue pure r).
Proof.
  intros F D R T.
  destruct r; inversion R; subst; simpl;
    try (do 2 eexists; split; [reflexivity|];
         split; [apply preserved_refl | constructor]).
  - destruct (F h1 (VRef a) R D) as (v' & h1' & E & K & R').
    exists v', h1'. split; [exact E|]. split; [exact K|].
    eapply representsIn_weaken; [|exact R']. simpl. intros x. lia.
  - destruct (F h1 (VRef a) R D) as (v' & h1' & E & K & R').
    exists v', h1'. split; [exact E|]. split; [exact K|].
    eapply representsIn_weaken; [|exact R']. simpl. intros x. lia.
Qed.

Lemma copyEntries_refines fuel es :
  Forall (fun kv => refines fieldName pure fuel (snd kv)) es ->
  Forall (fun kv => depth (snd kv) < fuel) es ->
  forall ves h0 h1 target accv acc,
    Forall2 (fun ve e => fst ve = fst e /\ represents h0 (snd ve) (snd e))
            ves es ->
    preserved h0 h1 ->
    List.length h0 <= target ->
    nth_error h1 target = Some (ObjectCell accv) ->
    Forall2 (fun ve e =>
               fst ve = fst e
               /\ representsIn (fun a => target < a) h1 (snd ve) (snd e))
            accv acc ->
    exists h2 accv',
      copyEntries fieldName (transform fieldName fuel) target ves h1
      = Some h2
      /\ preserved h0 h2
      /\ nth_error h2 target = Some (ObjectCell accv')
      /\ Forall2 (fun ve e =>
                    fst ve = fst e
                    /\ representsIn (fun a => target < a) h2
                         (snd ve) (snd e))
                 accv'
                 (fold_left
                    (fun transformed kv =>
                       setProperty transformed (fieldName (fst kv))
                         (pureValue pure (snd kv)))
                    es acc).
Proof.
  induction es as [|[k r] es IH];
    intros F D ves h0 h1 target accv acc R K L T A;
    inversion R as [|[key value] ? ves0 ? [Ek Hv] Hves]; subst.
  - exists h1, accv. repeat split; assumption.
  - inversion F as [|? ? Fr Frs]; inversion D as [|? ? Dr Drs]; subst.
    simpl in Ek, Hv, Fr, Dr. subst k.
    assert (Tlt : target < List.length h1)
      by (apply nth_error_Some; congruence).
    destruct (value_refines fuel r h1 value target Fr Dr
                (represents_preserved _ _ _ _ K Hv) Tlt)
      as (v' & h1' & E & K1 & R1).
    pose proof (K1 _ _ T) as T1.
    assert (T1lt : target < List.length h1')
      by (apply nth_error_Some; congruence).
    set (cell := ObjectCell (setProperty accv (fieldName key) v')).
    set (h2 := store h1' target cell).
    assert (Keep : forall a c, a <> target ->
              nth_error h1' a = Some c -> nth_error h2 a = Some c).
    { intros a c N Ha. unfold h2. rewrite store_other by exact N.
      exact Ha. }
    destruct (IH Frs Drs ves0 h0 h2 target
                (setProperty accv (fieldName key) v')
                (setProperty acc (fieldName key) (pureValue pure r)))
      as (h3 & accv' & E3 & K3 & T3 & A3).
    + exact Hves.
    + intros a c Ha. apply Keep; [|apply K1, K, Ha].
      assert (a < List.length h0) by (apply nth_error_Some; congruence).
      lia.
    + exact L.
    + unfold h2. apply store_same. exact T1lt.
    + apply setProperty_related.
      * eapply Forall2_impl; [|exact A].
        intros x y [Exy Rxy]. split; [exact Exy|].
        eapply representsIn_frame; [|exact Rxy].
        intros a c Pa Ha. apply Keep; [lia | apply K1, Ha].
      * eapply representsIn_frame; [|exact R1].
        intros a c Pa Ha. apply Keep; [lia | exact Ha].
    + exists h3, accv'. simpl. rewrite E. unfold assign. rewrite T1.
      fold cell. fold h2. rewrite E3.
      repeat split; assumption.
Qed.

Theorem transform_refines r : forall fuel, refines fieldName pure fuel r.
Proof.
  induction r as [| | n | s | b | items IH | entries IH] using record_ind;
    intros fuel h v R D.
  1-5: inversion R; subst; destruct fuel as [|fuel]; [simpl in D; lia|];
       do 2 eexists; (split; [reflexivity|]);
       (split; [apply preserved_refl|]);
       rewrite pure_primitive by reflexivity; constructor.
  - inversion R as [| | | | | a vs rs _ Ha Hvs |]; subst.
    destruct fuel as [|fuel]; [simpl in D; lia|].
    destruct (mapItems_refines fuel items) with (vs := vs) (h0 := h) (h1 := h)
      as (vs' & h1 & E & K & R1).
    + eapply Forall_impl; [|exact IH]. intros r Hr. apply Hr.
    + apply depth_of_items. exact D.
    + exact Hvs.
    + apply preserved_refl.
    + exists (VRef (List.length h1)), (h1 ++ [ArrayCell vs'])%list.
      simpl. rewrite Ha, E. split; [reflexivity|].
      split; [eapply preserved_trans;
              [exact K | apply (preserved_allocate h1 (ArrayCell vs'))]|].
      rewrite pure_arr.
      apply rep_arr with (vs := vs').
      * apply preserved_length. exact K.
      * apply (allocate_holds h1 (ArrayCell vs')).
      * eapply Forall2_impl; [|exact R1].
        intros x y. apply representsIn_frame.
        intros a0 c _. apply (preserved_allocate h1 (ArrayCell vs')).
  - inversion R as [| | | | | | a ves es _ Ha Hves]; subst.
    destruct fuel as [|fuel]; [simpl in D; lia|].
    destruct (copyEntries_refines fuel entries)
      with (ves := ves) (h0 := h) (h1 := (h ++ [ObjectCell []])%list)
           (target := List.length h)
           (accv := @nil (string * Value))
           (acc := @nil (string * JsValue))
      as (h2 & accv' & E & K & T & A).
    + eapply Forall_impl; [|exact IH]. intros kv Hr. apply Hr.
    + apply depth_of_entries. exact D.
    + exact Hves.
    + apply (preserved_allocate h (ObjectCell [])).
    + apply Nat.le_refl.
    + apply (allocate_holds h (ObjectCell [])).
    + constructor.
    + exists (VRef (List.length h)), h2.
      simpl. rewrite Ha, E. split; [reflexivity|].
      split; [exact K|].
      rewrite pure_obj.
      apply rep_obj with (ves := accv'); [apply Nat.le_refl | exact T |].
      eapply Forall2_impl; [|exact A].
      intros x y [Exy Rxy]. split; [exact Exy|].
      eapply representsIn_weaken; [|exact Rxy]. simpl. intros a0. lia.
Qed.
End Refinement.

(** *** The two directions *)

Lemma rallyToMcp_refines r fuel :
  refines DataTransformer.rallyFieldToMcp DataTransformer.rallyToMcp fuel r.
Proof.
  apply transform_refines.
  - reflexivity.
  - intros entries. unfold pureValue. reflexivity.
  - intros x H. destruct x; try reflexivity; discriminate H.
Qed.

Lemma mcpToRally_refines r fuel :
  refines DataTransformer.mcpFieldToRally DataTransformer.mcpToRally fuel r.
Proof.
  apply transform_refines.
  - reflexivity.
  - intros entries. unfold pureValue. reflexivity.
  - intros x H. destruct x; try reflexivity; discriminate H.
Qed.

Lemma refines_walksTo fieldName pure fuel h v r :
  refines fieldName pure fuel r ->
  represents h v r ->
  depth r < fuel ->
  walksTo (transform fieldName) pure fuel h v r.
Proof.
  intros F R D. destruct (F h v R D) as (v' & h' & E & K & R').
  exists v', h'. split; [exact E|]. split; [exact K|].
  split; [eapply represents_preserved; eassumption | exact R'].
Qed.

Lemma primitive_unchanged r :
  isObjectLike r = false ->
  DataTransformer.rallyToMcp r = r /\ DataTransformer.mcpToRally r = r.
Proof. destruct r; simpl; intros H; try discriminate H; auto. Qed.

Lemma primitive_returned fieldName fuel v h :
  isReference v = false -> transform fieldName (S fuel) v h = Some (v, h).
Proof. destruct v; simpl; intros H; try discriminate H; reflexivity. Qed.

Lemma depth_nested key n leaf : depth (nested key n leaf) = n + depth leaf.
Proof.
  induction n as [|n IH]; [reflexivity|].
  change (depth (nested key (S n) leaf))
    with (S (Nat.max (depth (nested key n leaf)) 0)).
  rewrite IH. lia.
Qed.

Lemma rallyToMcp_nested n :
  DataTransformer.rallyToMcp (nested "Level" n (JStr "test"))
  = nested "level" n (JStr "test").
Proof.
  induction n as [|n IH]; [reflexivity|].
  change (DataTransformer.rallyToMcp (nested "Level" (S n) (JStr "test")))
    with (JObj (setProperty []
                  (DataTransformer.rallyFieldToMcp "Level")
                  (if isObjectLike (nested "Level" n (JStr "test"))
                   then DataTransformer.rallyToMcp
                          (nested "Level" n (JStr "test"))
                   else nested "Level" n (JStr "test")))).
  replace (if isObjectLike (nested "Level" n (JStr "test"))
           then DataTransformer.rallyToMcp (nested "Level" n (JStr "test"))
           else nested "Level" n (JStr "test"))
    with (nested "level" n (JStr "test"))
    by (rewrite IH; destruct n; reflexivity).
  reflexivity.
Qed.

Lemma mcpToRally_nested n :
  DataTransformer.mcpToRally (nested "level" n (JStr "test"))
  = nested "Level" n (JStr "test").
Proof.
  induction n as [|n IH]; [reflexivity|].
  change (DataTransformer.mcpToRally (nested "level" (S n) (JStr "test")))
    with (JObj (setProperty []
                  (DataTransformer.mcpFieldToRally "level")
                  (if isObjectLike (nested "level" n (JStr "test"))
                   then DataTransformer.mcpToRally
                          (nested "level" n (JStr "test"))
                   else nested "level" n (JStr "test")))).
  replace (if isObjectLike (nested "level" n (JStr "test"))
           then DataTransformer.mcpToRally (nested "level" n (JStr "test"))
           else nested "level" n (JStr "test"))
    with (nested "Level" n (JStr "test"))
    by (rewrite IH; destruct n; reflexivity).
  reflexivity.
Qed.

(** An array of mixed kinds holding an object is walked with a stack
    that admits three calls. *)
Lemma mixed_array_is_walked :
  walksTo Store.rallyToMcp DataTransformer.rallyToMcp 3
    sampleHeap (VRef 1) sampleRecord.
Proof.
  apply refines_walksTo; [apply rallyToMcp_refines | | vm_compute; lia].
  apply rep_arr with
    (vs := [VRef 0; VNum 5; VNull; VBool true; VStr "text"]);
    [exact I | reflexivity |].
  repeat constructor.
  apply rep_obj with
    (ves := [("FormattedID", VStr "US1234"); ("_ref", VStr "https://x/1")]);
    [exact I | reflexivity |].
  repeat constructor.
Qed.

(** *** Records too deep for the call stack *)

Lemma towerHeap_length key n : List.length (towerHeap key n) = n.
Proof.
  induction n as [|n IH]; simpl; [reflexivity|].
  rewrite length_app, IH. simpl. lia.
Qed.

Lemma towerHeap_cell key n i :
  i < n -> nth_error (towerHeap key n) i = Some (towerCell key i).
Proof.
  induction n as [|n IH]; intros L; [lia|]. simpl.
  destruct (Nat.eq_dec i n) as [->|N].
  - rewrite nth_error_app2 by (rewrite towerHeap_length; lia).
    rewrite towerHeap_length, Nat.sub_diag. reflexivity.
  - rewrite nth_error_app1 by (rewrite towerHeap_length; lia).
    apply IH. lia.
Qed.

Lemma tower_represents key n :
  forall h,
    (forall i, i <= n -> nth_error h i = Some (towerCell key i)) ->
    represents h (VRef n) (nested key (S n) (JStr "test")).
Proof.
  induction n as [|n IH]; intros h H.
  - apply rep_obj with (ves := [(key, VStr "test")]);
      [exact I | apply (H 0); lia |].
    repeat constructor.
  - apply rep_obj with (ves := [(key, VRef n)]);
      [exact I | apply (H (S n)); lia |].
    constructor; [|constructor]. split; [reflexivity|].
    apply IH. intros i L. apply H. lia.
Qed.

Lemma tower_exhausts_the_stack fieldName key fuel :
  forall n h,
    fuel <= n ->
    (forall i, i <= n -> nth_error h i = Some (towerCell key i)) ->
    transform fieldName fuel (VRef n) h = None.
Proof.
  induction fuel as [|fuel IH]; intros n h L H; [reflexivity|].
  destruct n as [|n]; [lia|].
  cbn [transform]. rewrite (H (S n)) by lia.
  unfold towerCell, allocate. cbn [copyEntries isReference].
  rewrite IH; [reflexivity | lia |].
  intros i Li.
  rewrite nth_error_app1; [apply H; lia|].
  apply nth_error_Some. rewrite H by lia. discriminate.
Qed.

(** C6, counterexample.  A well-formed record nested 101 levels, held in
    a store, makes both walks throw when the call stack admits 100
    nested calls; and whatever number of nested calls the call stack
    admits, there is such a record, a tower of one object more than that
    number: nothing in the walks bounds the depth of the recursion. *)
Lemma C6_deep_records_exhaust_the_stack :
  (exists r h v,
      represents h v r
      /\ depth r = 101
      /\ Store.rallyToMcp 100 v h = None
      /\ Store.mcpToRally 100 v h = None)
  /\ (forall stack,
        represents (towerHeap "Level" (S stack)) (VRef stack)
          (nested "Level" (S stack) (JStr "test"))
        /\ depth (nested "Level" (S stack) (JStr "test")) = S stack
        /\ Store.rallyToMcp stack (VRef stack) (towerHeap "Level" (S stack))
           = None
        /\ Store.mcpToRally stack (VRef stack) (towerHeap "Level" (S stack))
           = None).
Proof.
  assert (G : forall stack,
             represents (towerHeap "Level" (S stack)) (VRef stack)
               (nested "Level" (S stack) (JStr "test"))
             /\ depth (nested "Level" (S stack) (JStr "test")) = S stack
             /\ Store.rallyToMcp stack (VRef stack)
                  (towerHeap "Level" (S stack)) = None
             /\ Store.mcpToRally stack (VRef stack)
                  (towerHeap "Level" (S stack)) = None).
  { intros stack.
    assert (H : forall i, i <= stack ->
                nth_error (towerHeap "Level" (S stack)) i
                = Some (towerCell "Level" i)).
    { intros i L. apply towerHeap_cell. lia. }
    split; [apply tower_represents; exact H|].
    split; [rewrite depth_nested; simpl; lia|].
    split; apply (tower_exhausts_the_stack _ "Level"); auto. }
  split; [|exact G].
  exists (nested "Level" 101 (JStr "test")), (towerHeap "Level" 101),
         (VRef 100).
  exact (G 100).
Qed.

(** C6, amended.  For every record less deep than the number of nested
    calls the call stack admits, whatever the kinds of the elements of
    its arrays, and for every store and value that hold it, both walks
    return; every cell of the store is left as it was, so the input is
    the same record afterwards; and the result is the record the pure
    function gives, held in new cells.  A primitive is returned as it is
    by the first call.  An empty object gives an empty object, an empty
    array an empty array.  The elements of an array are transformed one
    by one, in order.  A tower of [n] nested objects is transformed
    level by level, for every [n]. *)
Theorem C6_total_and_non_mutating :
  (forall r h v stack,
     represents h v r ->
     depth r < stack ->
     walksTo Store.rallyToMcp DataTransformer.rallyToMcp stack h v r
     /\ walksTo Store.mcpToRally DataTransformer.mcpToRally stack h v r)
  /\ (forall r,
        isObjectLike r = false ->
        DataTransformer.rallyToMcp r = r /\ DataTransformer.mcpToRally r = r)
  /\ (forall v h fuel,
        isReference v = false ->
        Store.rallyToMcp (S fuel) v h = Some (v, h)
        /\ Store.mcpToRally (S fuel) v h = Some (v, h))
  /\ DataTransformer.rallyToMcp (JObj []) = JObj []
  /\ DataTransformer.rallyToMcp (JArr []) = JArr []
  /\ DataTransformer.mcpToRally (JObj []) = JObj []
  /\ DataTransformer.mcpToRally (JArr []) = JArr []
  /\ (forall items,
        DataTransformer.rallyToMcp (JArr items)
        = JArr (map DataTransformer.rallyToMcp items)
        /\ DataTransformer.mcpToRally (JArr items)
           = JArr (map DataTransformer.mcpToRally items))
  /\ (forall n,
        depth (nested "Level" n (JStr "test")) = n
        /\ DataTransformer.rallyToMcp (nested "Level" n (JStr "test"))
           = nested "level" n (JStr "test")
        /\ DataTransformer.mcpToRally (nested "level" n (JStr "test"))
           = nested "Level" n (JStr "test")).
Proof.
  split.
  { intros r h v stack R D. split.
    - apply refines_walksTo; [apply rallyToMcp_refines | exact R | exact D].
    - apply refines_walksTo; [apply mcpToRally_refines | exact R | exact D]. }
  split; [exact primitive_unchanged|].
  split.
  { intros v h fuel H. split; apply primitive_returned; exact H. }
  do 4 (split; [reflexivity|]).
  split; [intros items; split; reflexivity|].
  intros n. split; [rewrite depth_nested; simpl; lia|].
  split; [apply rallyToMcp_nested | apply mcpToRally_nested].
Qed.

(** The amended C6 at a tower of a hundred objects, with a call stack
    that admits one call more. *)
Lemma C6_total_and_non_mutating_witness :
  walksTo Store.rallyToMcp DataTransformer.rallyToMcp 101
    (towerHeap "Level" 100) (VRef 99) (nested "Level" 100 (JStr "test")).
Proof.
  refine (proj1 (proj1 C6_total_and_non_mutating
                   (nested "Level" 100 (JStr "test"))
                   (towerHeap "Level" 100) (VRef 99) 101 _ _)).
  - apply (tower_represents "Level" 99). intros i L.
    apply towerHeap_cell. lia.
  - rewrite depth_nested. simpl. lia.
Defined.

End StoreSpec.

(* ================================================================== *)
(** ** Properties of the error classifier *)
(* ================================================================== *)

Module ClassifierSpec.
Import Js ErrorTypes ErrorHandler Failures.

(** *** What follows the construction of the record *)

Lemma after_processing cfg (m : Handler MCPError) r st st1 :
  m st = Returned (r, st1) ->
  exists st',
    (mcpError <- m ;;
     trackError mcpError ;;;
     logError mcpError ;;;
     (if enableErrorAggregation cfg then addToHistory cfg mcpError
      else ret tt) ;;;
     ret mcpError) st = Returned (r, st').
Proof.
  intros H. unfold bind at 1. rewrite H.
  unfold bind, trackError, logError, addToHistory, modify, ret.
  destruct (enableErrorAggregation cfg); eexists; reflexivity.
Qed.

Lemma after_throw cfg (m : Handler MCPError) e st :
  m st = Threw e ->
  (mcpError <- m ;;
   trackError mcpError ;;;
   logError mcpError ;;;
   (if enableErrorAggregation cfg then addToHistory cfg mcpError
    else ret tt) ;;;
   ret mcpError) st = Threw e.
Proof.
  intros H. unfold bind at 1. rewrite H. reflexivity.
Qed.

Lemma handleError_result cfg env error op ctx st r st' :
  handleError cfg env error op ctx st = Returned (r, st') ->
  exists ectx st0 st1,
    match error with
    | ErrorInstance name message stack cause _ _ =>
        processError cfg name message stack cause (now env) ectx st0
    | ErrorWithoutText texts _ => throw (classifyErrorFailure texts) st0
    | AxiosShaped message stack t =>
        processAxiosError cfg message stack t (now env) ectx st0
    | OtherValue v => processUnknownError v (now env) ectx st0
    end = Returned (r, st1).
Proof.
  unfold handleError. intros H.
  match type of H with
  | bind ?m _ _ = _ => destruct (m st) as [[r1 st1]|e] eqn:E
  end.
  - destruct (after_processing cfg _ _ _ _ E) as [st2 H2].
    rewrite H2 in H. injection H as <- _.
    destruct error; try discriminate E; do 3 eexists; exact E.
  - rewrite (after_throw cfg _ _ _ E) in H. discriminate.
Qed.

(** *** The three builders, seen from outside *)

Lemma processError_returns cfg name msg stack cause clock ectx st :
  exists r,
    processError cfg name msg stack cause clock ectx st = Returned (r, st)
    /\ type r = classifyError name msg
    /\ severity r = determineSeverity (classifyError name msg)
    /\ recovery r = determineRecoveryStrategy (classifyError name msg)
    /\ message r
       = createUserFriendlyMessage (classifyError name msg) (Some msg).
Proof.
  eexists. unfold processError, bind, getErrorCount, gets, ret.
  split; [reflexivity|]. simpl. auto.
Qed.

Lemma processAxiosError_status cfg msg stack t clock ectx st resp code :
  response t = Some resp ->
  status resp = Some code ->
  exists r,
    processAxiosError cfg msg stack t clock ectx st = Returned (r, st)
    /\ type r
       = match ownProperty (numberToString code) RALLY_ERROR_MAPPINGS with
         | Some mapping => m_type mapping
         | None => RALLY_API_ERROR
         end
    /\ severity r
       = match ownProperty (numberToString code) RALLY_ERROR_MAPPINGS with
         | Some mapping => m_severity mapping
         | None => getHttpErrorSeverity code
         end
    /\ recovery r = determineRecoveryStrategy (type r)
    /\ message r = createUserFriendlyMessage (type r) msg
    /\ rallyErrorCode r = Some (numberToString code).
Proof.
  intros Hr Hs.
  unfold processAxiosError, bind, getErrorCount, gets, ret.
  rewrite Hr, Hs.
  destruct (ownProperty (numberToString code) RALLY_ERROR_MAPPINGS);
    eexists; simpl; repeat split; reflexivity.
Qed.

Lemma processAxiosError_no_response cfg msg stack t clock ectx st :
  response t = None ->
  exists r,
    processAxiosError cfg msg stack t clock ectx st = Returned (r, st)
    /\ type r = (if request t then classifyNetworkError (textOf msg)
                 else CONFIGURATION_ERROR)
    /\ message r = createUserFriendlyMessage (type r) msg.
Proof.
  intros Hr.
  unfold processAxiosError, bind, getErrorCount, gets, ret.
  rewrite Hr. destruct (request t); eexists; simpl; repeat split; reflexivity.
Qed.

Lemma processAxiosError_no_status cfg msg stack t clock ectx st resp :
  response t = Some resp ->
  status resp = None ->
  exists e, processAxiosError cfg msg stack t clock ectx st = Threw e.
Proof.
  intros Hr Hs. eexists.
  unfold processAxiosError, bind, throw. rewrite Hr, Hs. reflexivity.
Qed.

Lemma processUnknownError_returns v clock ectx st text :
  stringOf v = Some text ->
  exists r,
    processUnknownError v clock ectx st = Returned (r, st)
    /\ type r = UNEXPECTED_ERROR
    /\ severity r = HIGH
    /\ message r = "An unexpected error occurred".
Proof.
  intros Hs. eexists.
  unfold processUnknownError, bind, getErrorCount, gets, ret.
  rewrite Hs. simpl. repeat split; reflexivity.
Qed.

(** *** [handleError], by the kind of its argument *)

Lemma handleError_ErrorInstance cfg env name msg stack cause mark t op ctx st :
  exists r st',
    handleError cfg env (ErrorInstance name msg stack cause mark t) op ctx st
    = Returned (r, st')
    /\ type r = classifyError name msg
    /\ severity r = determineSeverity (classifyError name msg)
    /\ recovery r = determineRecoveryStrategy (classifyError name msg)
    /\ message r
       = createUserFriendlyMessage (classifyError name msg) (Some msg).
Proof.
  unfold handleError.
  match goal with
  | |- context [processError ?c ?n ?m ?s ?ca ?clock ?ectx] =>
      destruct (processError_returns c n m s ca clock ectx st)
        as (r & Hr & Hfacts)
  end.
  destruct (after_processing cfg _ _ _ _ Hr) as [st' H].
  exists r, st'. split; [exact H | exact Hfacts].
Qed.

Lemma handleError_AxiosShaped_status cfg env msg stack t op ctx st resp code :
  response t = Some resp ->
  status resp = Some code ->
  exists r st',
    handleError cfg env (AxiosShaped msg stack t) op ctx st = Returned (r, st')
    /\ type r
       = match ownProperty (numberToString code) RALLY_ERROR_MAPPINGS with
         | Some mapping => m_type mapping
         | None => RALLY_API_ERROR
         end
    /\ severity r
       = match ownProperty (numberToString code) RALLY_ERROR_MAPPINGS with
         | Some mapping => m_severity mapping
         | None => getHttpErrorSeverity code
         end
    /\ recovery r = determineRecoveryStrategy (type r)
    /\ message r = createUserFriendlyMessage (type r) msg
    /\ rallyErrorCode r = Some (numberToString code).
Proof.
  intros Hresp Hstatus. unfold handleError.
  match goal with
  | |- context [processAxiosError ?c ?m ?s ?tr ?clock ?ectx] =>
      destruct (processAxiosError_status c m s tr clock ectx st resp code
                  Hresp Hstatus) as (r & Hr & Hfacts)
  end.
  destruct (after_processing cfg _ _ _ _ Hr) as [st' H].
  exists r, st'. split; [exact H | exact Hfacts].
Qed.


Lemma handleError_AxiosShaped_no_status cfg env msg stack t op ctx st resp :
  response t = Some resp ->
  status resp = None ->
  exists e,
    handleError cfg env (AxiosShaped msg stack t) op ctx st = Threw e.
Proof.
  intros Hresp Hstatus. unfold handleError.
  match goal with
  | |- context [processAxiosError ?c ?m ?s ?tr ?clock ?ectx] =>
      destruct (processAxiosError_no_status c m s tr clock ectx st resp
                  Hresp Hstatus) as (e & He)
  end.
  exists e. apply after_throw. exact He.
Qed.


Lemma handleError_OtherValue_unprintable cfg env v op ctx st :
  stringOf v = None ->
  exists e, handleError cfg env (OtherValue v) op ctx st = Threw e.
Proof.
  intros Htext. unfold handleError. eexists. apply after_throw.
  unfold processUnknownError. rewrite Htext. reflexivity.
Qed.

(** On the transport path the status decides alone: two failures with
    the same status get the same category, severity and strategy,
    whatever their messages. *)
Lemma status_decides_on_transport_path
    cfg env msg1 msg2 stack1 stack2 t1 t2 op ctx st resp1 resp2 code :
  response t1 = Some resp1 -> status resp1 = Some code ->
  response t2 = Some resp2 -> status resp2 = Some code ->
  exists r1 st1 r2 st2,
    handleError cfg env (AxiosShaped msg1 stack1 t1) op ctx st
    = Returned (r1, st1)
    /\ handleError cfg env (AxiosShaped msg2 stack2 t2) op ctx st
       = Returned (r2, st2)
    /\ type r1 = type r2
    /\ severity r1 = severity r2
    /\ recovery r1 = recovery r2.
Proof.
  intros A1 B1 A2 B2.
  destruct (handleError_AxiosShaped_status cfg env msg1 stack1 t1 op ctx st
              resp1 code A1 B1) as (r1 & s1 & H1 & T1 & S1 & R1 & _).
  destruct (handleError_AxiosShaped_status cfg env msg2 stack2 t2 op ctx st
              resp2 code A2 B2) as (r2 & s2 & H2 & T2 & S2 & R2 & _).
  exists r1, s1, r2, s2. repeat split; try assumption; congruence.
Qed.

(** A 401 on the transport path is an authentication error whatever the
    message says, a network pattern included. *)
Lemma unauthorized_on_transport_path cfg env msg stack t op ctx st resp :
  response t = Some resp ->
  status resp = Some 401%Z ->
  exists r st',
    handleError cfg env (AxiosShaped msg stack t) op ctx st = Returned (r, st')
    /\ type r = AUTHENTICATION_ERROR.
Proof.
  intros A B.
  destruct (handleError_AxiosShaped_status cfg env msg stack t op ctx st
              resp _ A B) as (r & st' & H & T & _).
  exists r, st'. split; [exact H | exact T].
Qed.

(** A 429 on the transport path is a rate limit with retries. *)
Lemma rate_limit_on_transport_path cfg env msg stack t op ctx st resp :
  response t = Some resp ->
  status resp = Some 429%Z ->
  exists r st',
    handleError cfg env (AxiosShaped msg stack t) op ctx st = Returned (r, st')
    /\ type r = RALLY_RATE_LIMIT
    /\ strategy (recovery r) = RETRY_WITH_BACKOFF
    /\ maxRetries (recovery r) = Some 5.
Proof.
  intros A B.
  destruct (handleError_AxiosShaped_status cfg env msg stack t op ctx st
              resp _ A B) as (r & st' & H & T & _ & R & _).
  exists r, st'. split; [exact H|]. split; [exact T|].
  rewrite R. change (type r = RALLY_RATE_LIMIT) in T. rewrite T.
  split; reflexivity.
Qed.

(** *** The claims *)

(** C1 (the code departs from the claim).  An error raised by the HTTP
    client is an [Error] instance; [handleError] tests [instanceof Error]
    first, so such a failure is classified from its name and message and
    the response it carries is never looked at.  With status 401 and a
    message naming a refused connection the category is the network one,
    where the claim asks for authentication. *)
Theorem C1_error_instance_with_401_classified_by_message :
  forall cfg env stack cause op ctx st,
    let failure :=
      ErrorInstance "AxiosError" "connect ECONNREFUSED 10.0.0.1:443"
        stack cause true (responseWith 401) in
    carriedStatus failure = Some 401%Z
    /\ existsb (fun p => patternTest (pattern p) (rawMessage failure))
               NETWORK_ERROR_PATTERNS = true
    /\ exists r st',
         handleError cfg env failure op ctx st = Returned (r, st')
         /\ type r = NETWORK_ERROR
         /\ type r <> AUTHENTICATION_ERROR.
Proof.
  intros cfg env stack cause op ctx st failure.
  split; [reflexivity|]. split; [vm_compute; reflexivity|].
  destruct (handleError_ErrorInstance cfg env "AxiosError"
              "connect ECONNREFUSED 10.0.0.1:443" stack cause true
              (responseWith 401) op ctx st) as (r & st' & H & T & _).
  exists r, st'. split; [exact H|].
  assert (E : type r = NETWORK_ERROR) by (rewrite T; vm_compute; reflexivity).
  split; [exact E|]. rewrite E. discriminate.
Qed.

(** C9 (the code departs from the claim).  For the same reason as in C1,
    the error the HTTP client raises for a 429 reply (here with the
    message the repository's own mock gives it) is classified from its
    message: the category is the internal one, with a plain retry and a
    single attempt, not the rate limit with backoff. *)
Theorem C9_error_instance_with_429_is_internal :
  forall cfg env stack cause op ctx st,
    let failure :=
      ErrorInstance "AxiosError" "Too Many Requests"
        stack cause true (responseWith 429) in
    carriedStatus failure = Some 429%Z
    /\ exists r st',
         handleError cfg env failure op ctx st = Returned (r, st')
         /\ type r = INTERNAL_ERROR
         /\ type r <> RALLY_RATE_LIMIT
         /\ strategy (recovery r) = RETRY
         /\ maxRetries (recovery r) = Some 1.
Proof.
  intros cfg env stack cause op ctx st failure.
  split; [reflexivity|].
  destruct (handleError_ErrorInstance cfg env "AxiosError"
              "Too Many Requests" stack cause true
              (responseWith 429) op ctx st) as (r & st' & H & T & _ & R & _).
  exists r, st'. split; [exact H|].
  assert (E : type r = INTERNAL_ERROR) by (rewrite T; vm_compute; reflexivity).
  split; [exact E|]. split; [rewrite E; discriminate|].
  rewrite R. split; vm_compute; reflexivity.
Qed.




(** C3, counterexample.  A 500 reply is a Rally server error, a category
    without entry in the message table: the message is then built from
    the failure's own text, so two failures of that category get
    different messages, each containing the raw text. *)
Lemma C3_message_carries_raw_text :
  exists r1 st1 r2 st2,
    handleError sampleConfig sampleEnvironment refusedUpstream "query" None
      initialState = Returned (r1, st1)
    /\ handleError sampleConfig sampleEnvironment failedWith500 "query" None
         initialState = Returned (r2, st2)
    /\ type r1 = RALLY_SERVER_ERROR
    /\ type r2 = RALLY_SERVER_ERROR
    /\ message r1 = "Error: connect to db-7.corp.internal:5432 refused"
    /\ includes (rawMessage refusedUpstream) (message r1) = true
    /\ message r1 <> message r2.
Proof.
  do 4 eexists. split; [vm_compute; reflexivity|].
  split; [vm_compute; reflexivity|].
  repeat split; try reflexivity. simpl. discriminate.
Qed.

(** C3, amended.  Whenever [handleError] returns a record: for a value
    that is neither an [Error] nor marked [isAxiosError] the message is
    the fixed text of the unexpected category; otherwise, when the
    category has an entry in the message table, the message is that entry
    and does not depend on the failure's text; and for the categories
    without entry it is ["Error: "] followed by the failure's own
    message. *)
Theorem C3_message_is_template_or_prefixed_text :
  forall cfg env error op ctx st r st',
    handleError cfg env error op ctx st = Returned (r, st') ->
    message r
    = match error with
      | OtherValue _ => "An unexpected error occurred"
      | _ =>
          match userMessages (type r) with
          | Some template => template
          | None => "Error: " ++ rawMessage error
          end
      end.
Proof.
  intros cfg env error op ctx st r st' H.
  destruct (handleError_result _ _ _ _ _ _ _ _ H) as (ectx & st0 & st1 & P).
  destruct error as [name msg stack cause mark t | texts t | msg stack t | v].
  - destruct (processError_returns cfg name msg stack cause (now env) ectx st0)
      as (r' & P' & T & _ & _ & M).
    rewrite P' in P. injection P as <- _.
    rewrite M, T. reflexivity.
  - discriminate P.
  - destruct (response t) as [resp|] eqn:Hresp.
    + destruct (status resp) as [code|] eqn:Hstatus.
      * destruct (processAxiosError_status cfg msg stack t (now env) ectx st0
                    resp code Hresp Hstatus) as (r' & P' & _ & _ & _ & M & _).
        rewrite P' in P. injection P as <- _. rewrite M. reflexivity.
      * destruct (processAxiosError_no_status cfg msg stack t (now env) ectx
                    st0 resp Hresp Hstatus) as (e & P').
        rewrite P' in P. discriminate.
    + destruct (processAxiosError_no_response cfg msg stack t (now env) ectx
                  st0 Hresp) as (r' & P' & _ & M).
      rewrite P' in P. injection P as <- _. rewrite M. reflexivity.
  - destruct (stringOf v) as [text|] eqn:Htext.
    + destruct (processUnknownError_returns v (now env) ectx st0 text Htext)
        as (r' & P' & _ & _ & M).
      rewrite P' in P. injection P as <- _. exact M.
    + unfold processUnknownError in P. rewrite Htext in P. discriminate.
Qed.

(** The amended C3 at a 401 whose own message names a host. *)
Lemma C3_message_is_template_or_prefixed_text_witness :
  exists r st',
    handleError sampleConfig sampleEnvironment
      (AxiosShaped (Some "secret-host refused") None (responseWith 401))
      "getArtifact" None initialState = Returned (r, st')
    /\ message r = "Authentication failed. Please check your Rally API key.".
Proof.
  do 2 eexists. split.
  - vm_compute. reflexivity.
  - refine (C3_message_is_template_or_prefixed_text sampleConfig
              sampleEnvironment
              (AxiosShaped (Some "secret-host refused") None (responseWith 401))
              "getArtifact" None initialState _ _ _).
    vm_compute. reflexivity.
Defined.




End ClassifierSpec.

(* ================================================================== *)
(** ** The handler over a sequence of calls *)
(* ================================================================== *)

Module HandlerSpec.
Import Js ErrorTypes ErrorHandler Failures.

(** *** Counters *)







(** *** The state a call leaves *)



(** *** Calls in sequence *)










(** *** The history *)








(** *** The record a call returns *)







(** *** Classification *)

Lemma classifyError_range name msg :
  In (classifyError name msg) errorPathCategories.
Proof.
  unfold classifyError.
  destruct (includes "validation" (toLowerCase name)
            || includes "validation" (toLowerCase msg)).
  { simpl. auto. }
  match goal with
  | |- context [find ?f NETWORK_ERROR_PATTERNS] =>
      destruct (find f NETWORK_ERROR_PATTERNS) as [p|] eqn:F
  end.
  - apply find_some in F. destruct F as [F _].
    simpl in F.
    destruct F as [<-|[<-|[<-|[<-|[]]]]]; simpl; auto 12.
  - repeat match goal with
           | |- context [if ?b then _ else _] => destruct b
           end; simpl; auto 12.
Qed.

Lemma handleError_ErrorWithoutText cfg env texts t op ctx st :
  handleError cfg env (ErrorWithoutText texts t) op ctx st
  = Threw (classifyErrorFailure texts).
Proof. unfold handleError. apply ClassifierSpec.after_throw. reflexivity. Qed.

Lemma error_instance_record cfg env error op ctx st r st' :
  instanceOfError error = true ->
  handleError cfg env error op ctx st = Returned (r, st') ->
  exists name msg stack cause mark t,
    error = ErrorInstance name msg stack cause mark t
    /\ type r = classifyError name msg
    /\ severity r = determineSeverity (classifyError name msg).
Proof.
  intros E H. destruct error as [n m s c a t|texts t|m s t|v];
    try discriminate E.
  - destruct (ClassifierSpec.handleError_ErrorInstance
                cfg env n m s c a t op ctx st) as (r0 & st0 & H0 & T & S & _).
    rewrite H0 in H. injection H as <- _.
    exists n, m, s, c, a, t. auto.
  - rewrite handleError_ErrorWithoutText in H. discriminate H.
Qed.

(** X7.  Whenever [handleError] returns a record for a failure that is
    an [Error] instance, the category of the record is one of ten:
    validation, the four network categories, data transformation,
    serialization, authentication, permission and internal; it is the
    one [classifyError] gives for the name and the message.  No record
    of such a failure is of a Rally, rate-limit, not-found or unexpected
    category, whatever the failure carries. *)
Theorem error_instances_get_one_of_ten_categories :
  forall cfg env error op ctx st r st',
    instanceOfError error = true ->
    handleError cfg env error op ctx st = Returned (r, st') ->
    In (type r) errorPathCategories
    /\ match error with
       | ErrorInstance name msg _ _ _ _ => type r = classifyError name msg
       | _ => True
       end.
Proof.
  intros cfg env error op ctx st r st' E H.
  destruct (error_instance_record _ _ _ _ _ _ _ _ E H)
    as (name & msg & stack & cause & mark & t & -> & T & _).
  split; [|exact T]. rewrite T. apply classifyError_range.
Qed.

Lemma error_instances_get_one_of_ten_categories_witness :
  exists r st',
    handleError sampleConfig sampleEnvironment
      (ErrorInstance "AxiosError" "Too Many Requests" None JUndefined true
         (responseWith 429))
      "query" None initialState = Returned (r, st')
    /\ In (type r) errorPathCategories
    /\ type r = classifyError "AxiosError" "Too Many Requests".
Proof.
  do 2 eexists. split.
  - vm_compute. reflexivity.
  - refine (error_instances_get_one_of_ten_categories sampleConfig
              sampleEnvironment
              (ErrorInstance "AxiosError" "Too Many Requests" None JUndefined
                 true (responseWith 429))
              "query" None initialState _ _ _ _).
    + reflexivity.
    + vm_compute. reflexivity.
Defined.

(** X8.  Whenever [handleError] returns a record for a failure that is
    an [Error] instance, the severity of the record follows from its
    category alone: critical for a certificate error; high for a
    timeout, a DNS failure, an authentication or a permission error;
    medium for a validation error; low for the rest, a refused or reset
    connection included.  The severities listed with
    [NETWORK_ERROR_PATTERNS] are not consulted: the record's severity
    differs from the one of the pattern of its category for timeouts
    and for network errors. *)
Theorem severity_of_error_instances :
  forall cfg env error op ctx st r st',
    instanceOfError error = true ->
    handleError cfg env error op ctx st = Returned (r, st') ->
    severity r
    = match type r with
      | SSL_CERTIFICATE_ERROR => CRITICAL
      | CONNECTION_TIMEOUT | DNS_RESOLUTION_ERROR
      | AUTHENTICATION_ERROR | PERMISSION_ERROR => HIGH
      | VALIDATION_ERROR => MEDIUM
      | _ => LOW
      end
    /\ forall p,
         In p NETWORK_ERROR_PATTERNS ->
         errorType p = type r ->
         (severity r = pat_severity p
          <-> type r <> CONNECTION_TIMEOUT /\ type r <> NETWORK_ERROR).
Proof.
  intros cfg env error op ctx st r st' E H.
  destruct (error_instance_record _ _ _ _ _ _ _ _ E H)
    as (name & msg & stack & cause & mark & t & _ & T & S).
  rewrite S, T.
  pose proof (classifyError_range name msg) as R.
  generalize dependent (classifyError name msg). intros category _ _ R.
  simpl in R.
  repeat (destruct R as [R|R];
          [subst category; split; [vm_compute; reflexivity|];
           intros p Hp Q; simpl in Hp;
           repeat (destruct Hp as [Hp|Hp];
                   [subst p; vm_compute in Q |- *;
                    first
                      [ discriminate Q
                      | split;
                        [ intros Q0;
                          first [discriminate Q0 | split; discriminate]
                        | intros [Q1 Q2];
                          first [ reflexivity
                                | exfalso; apply Q1; reflexivity
                                | exfalso; apply Q2; reflexivity ] ] ]|]);
           destruct Hp|]).
  destruct R.
Qed.

Lemma severity_of_error_instances_witness :
  exists r st',
    handleError sampleConfig sampleEnvironment
      (ErrorInstance "Error" "connect ECONNREFUSED 10.0.0.1:443" None
         JUndefined false noTransport)
      "query" None initialState = Returned (r, st')
    /\ severity r
       = match type r with
         | SSL_CERTIFICATE_ERROR => CRITICAL
         | CONNECTION_TIMEOUT | DNS_RESOLUTION_ERROR
         | AUTHENTICATION_ERROR | PERMISSION_ERROR => HIGH
         | VALIDATION_ERROR => MEDIUM
         | _ => LOW
         end
    /\ forall p,
         In p NETWORK_ERROR_PATTERNS ->
         errorType p = type r ->
         (severity r = pat_severity p
          <-> type r <> CONNECTION_TIMEOUT /\ type r <> NETWORK_ERROR).
Proof.
  do 2 eexists. split.
  - vm_compute. reflexivity.
  - refine (severity_of_error_instances sampleConfig sampleEnvironment
              (ErrorInstance "Error" "connect ECONNREFUSED 10.0.0.1:443" None
                 JUndefined false noTransport)
              "query" None initialState _ _ _ _).
    + reflexivity.
    + vm_compute. reflexivity.
Defined.

(** X9.  Classification does not look at the case of letters: two names
    and two messages that are equal up to the case of their letters are
    classified alike, by [classifyError] and by [classifyNetworkError]. *)
Theorem classification_ignores_letter_case :
  forall name1 name2 msg1 msg2,
    toLowerCase name1 = toLowerCase name2 ->
    toLowerCase msg1 = toLowerCase msg2 ->
    classifyError name1 msg1 = classifyError name2 msg2
    /\ classifyNetworkError msg1 = classifyNetworkError msg2.
Proof.
  intros name1 name2 msg1 msg2 N M.
  unfold classifyError, classifyNetworkError, patternTest.
  rewrite N, M. split; reflexivity.
Qed.

Lemma classification_ignores_letter_case_witness :
  classifyError "TypeError" "connect ETIMEDOUT 10.0.0.1:443"
  = classifyError "TYPEERROR" "Connect etimedout 10.0.0.1:443"
  /\ classifyNetworkError "connect ETIMEDOUT 10.0.0.1:443"
     = classifyNetworkError "Connect etimedout 10.0.0.1:443".
Proof.
  apply (classification_ignores_letter_case
           "TypeError" "TYPEERROR"
           "connect ETIMEDOUT 10.0.0.1:443" "Connect etimedout 10.0.0.1:443");
    reflexivity.
Defined.

(** *** Statuses without an entry in the table *)

Lemma readNumber_numberToString n : readNumber (numberToString n) = Some n.
Proof.
  unfold readNumber, numberToString. rewrite NilEmpty.isi. simpl.
  rewrite DecimalZ.of_to. reflexivity.
Qed.


Lemma ownProperty_absent {A : Type} key (table : list (string * A)) :
  ownProperty key table = None -> forall v, ~ In (key, v) table.
Proof.
  induction table as [|[k w] rest IH]; simpl; intros H v; [tauto|].
  destruct (k =? key)%string eqn:E; [discriminate|].
  apply String.eqb_neq in E. intros [Q|Q].
  - injection Q as -> _. congruence.
  - exact (IH H v Q).
Qed.






(** *** The patterns reported *)













End HandlerSpec.

(* ================================================================== *)
(** ** More on the transformer: names, tables and whole records *)
(* ================================================================== *)

Module RecordsSpec.
Import Js DataTransformer Vocabulary Shapes TransformerSpec.

(** *** The table of known fields *)

(** X12.  The table [getFieldMappings] agrees with the conversions: each
    entry is filed under its Rally name, its MCP name is converted to
    its Rally name by [mcpFieldToRally], and, but for [ToDo], its Rally
    name to its MCP name by [rallyFieldToMcp].  For [ToDo] the table
    says [todo] where [rallyFieldToMcp] gives [to-do].  An entry is of
    the metadata kind exactly when its Rally name begins with an
    underscore. *)
Theorem known_fields_agree_with_the_conversions :
  forall key entry,
    In (key, entry) getFieldMappings ->
    key = rallyField entry
    /\ mcpFieldToRally (mcpField entry) = rallyField entry
    /\ (fieldType entry = metadata
        <-> startsWith "_" (rallyField entry) = true)
    /\ (if (rallyField entry =? "ToDo")%string
        then mcpField entry = "todo"
             /\ rallyFieldToMcp (rallyField entry) = "to-do"
        else rallyFieldToMcp (rallyField entry) = mcpField entry).
Proof.
  intros key entry H. simpl in H.
  repeat (destruct H as [H|H];
          [injection H as <- <-;
           split; [reflexivity|];
           split; [vm_compute; reflexivity|];
           split; [vm_compute; split; (reflexivity || discriminate)|];
           vm_compute; repeat split|]).
  destruct H.
Qed.

Lemma known_fields_agree_with_the_conversions_witness :
  "ToDo" = "ToDo"
  /\ mcpFieldToRally "todo" = "ToDo"
  /\ (standard = metadata <-> startsWith "_" "ToDo" = true)
  /\ "todo" = "todo" /\ rallyFieldToMcp "ToDo" = "to-do".
Proof.
  apply (known_fields_agree_with_the_conversions "ToDo"
           (mkFieldMapping "ToDo" "todo" standard)).
  simpl. tauto.
Defined.

(** *** Case and dashes *)

Lemma toLowerCase_idempotent s : toLowerCase (toLowerCase s) = toLowerCase s.
Proof.
  induction s as [|c s IH]; simpl; [reflexivity|]. rewrite IH. f_equal.
  check_characters
    (fun c => (charToLower (charToLower c) =? charToLower c)%char) c.
  apply Ascii.eqb_eq. exact H.
Qed.

Lemma camelToKebab_lower s : toLowerCase (camelToKebab s) = camelToKebab s.
Proof. unfold camelToKebab. apply toLowerCase_idempotent. Qed.

(** X13.  A name produced by [rallyFieldToMcp] has no capital letter:
    lower-casing it changes nothing. *)
Theorem rallyFieldToMcp_gives_lower_case :
  forall field, toLowerCase (rallyFieldToMcp field) = rallyFieldToMcp field.
Proof.
  intros field. unfold rallyFieldToMcp.
  destruct (startsWith "_" field); [|destruct (startsWith "c_" field)];
    rewrite ?toLowerCase_append, ?camelToKebab_lower; reflexivity.
Qed.



Lemma dash_toUpper c : (charToUpper c =? "-")%char = (c =? "-")%char.
Proof.
  check_characters
    (fun c => Bool.eqb (charToUpper c =? "-")%char (c =? "-")%char) c.
  apply Bool.eqb_prop. exact H.
Qed.













(** *** Objects built property by property *)

Lemma assignEntry_fresh {V : Type} key (value : V) entries :
  ~ In key (map fst entries) ->
  assignEntry key value entries = (entries ++ [(key, value)])%list.
Proof.
  induction entries as [|[k v] rest IH]; simpl; intros H; [reflexivity|].
  destruct (k =? key)%string eqn:E.
  - apply String.eqb_eq in E. tauto.
  - rewrite IH by tauto. reflexivity.
Qed.

Lemma fold_setProperty_fresh {A V : Type} (name : A -> string) (val : A -> V) :
  forall l acc,
    NoDup (map fst acc ++ map name l)%list ->
    Forall (fun a => name a <> "__proto__") l ->
    fold_left (fun t a => setProperty t (name a) (val a)) l acc
    = (acc ++ map (fun a => (name a, val a)) l)%list.
Proof.
  induction l as [|a l IH]; intros acc D F; simpl.
  - rewrite app_nil_r. reflexivity.
  - inversion F as [|? ? Fa Fl]; subst.
    unfold setProperty at 2.
    destruct (name a =? "__proto__")%string eqn:E;
      [apply String.eqb_eq in E; contradiction|].
    simpl in D. pose proof (NoDup_remove_2 _ _ _ D) as Hfresh.
    rewrite assignEntry_fresh by (intros Q; apply Hfresh, in_or_app; auto).
    rewrite IH; [rewrite <- app_assoc; reflexivity| |exact Fl].
    rewrite map_app, <- app_assoc. exact D.
Qed.

Lemma fold_left_agree {A B : Type} (f g : B -> A -> B) l :
  (forall acc a, In a l -> f acc a = g acc a) ->
  forall acc, fold_left f l acc = fold_left g l acc.
Proof.
  induction l as [|a l IH]; intros H acc; simpl; [reflexivity|].
  rewrite (H acc a) by (simpl; auto). apply IH.
  intros acc' a' Hin. apply H. simpl. auto.
Qed.

Lemma setProperty_entries {V : Type} (acc : list (string * V)) key value kv :
  In kv (setProperty acc key value) -> In kv acc \/ kv = (key, value).
Proof.
  unfold setProperty. destruct (key =? "__proto__")%string; [auto|].
  induction acc as [|[k v] rest IH]; simpl.
  - intros [<-|[]]. auto.
  - destruct (k =? key)%string eqn:E; simpl.
    + apply String.eqb_eq in E. subst k. intros [<-|H]; auto.
    + intros [<-|H]; auto. destruct (IH H); auto.
Qed.

(** X15.  [transformFieldNames] converts the names of one object and
    nothing below: every value of the result is a value of the object
    given, as it was, under the converted name.  On an object none of
    whose values is an array or an object it gives what [rallyToMcp]
    gives. *)
Theorem transformFieldNames_is_the_walk_without_descent :
  forall data,
    (forall key value,
        In (key, value) (transformFieldNames data) ->
        exists field, In (field, value) data /\ key = rallyFieldToMcp field)
    /\ (flat data = true ->
        rallyToMcp (JObj data) = JObj (transformFieldNames data)).
Proof.
  intros data. split.
  - unfold transformFieldNames.
    assert (G : forall (l acc : list (string * JsValue)) key value,
              In (key, value)
                (fold_left
                   (fun transformed kv =>
                      setProperty transformed (rallyFieldToMcp (fst kv))
                        (snd kv)) l acc) ->
              In (key, value) acc
              \/ exists field, In (field, value) l
                               /\ key = rallyFieldToMcp field).
    { induction l as [|[k v] l IH]; simpl; intros acc key value H; [auto|].
      destruct (IH _ _ _ H) as [Q|(field & Q & E)].
      - destruct (setProperty_entries _ _ _ _ Q) as [Q'|Q']; [auto|].
        injection Q' as -> ->. right. exists k. auto.
      - right. exists field. auto. }
    intros key value H. destruct (G _ _ _ _ H) as [[]|Q]. exact Q.
  - intros F. cbn [rallyToMcp]. f_equal. unfold transformFieldNames.
    apply fold_left_agree. intros acc [k v] Hin. simpl.
    unfold flat in F. rewrite forallb_forall in F.
    specialize (F _ Hin). simpl in F.
    destruct (isObjectLike v); [discriminate|reflexivity].
Qed.

Lemma transformFieldNames_is_the_walk_without_descent_witness :
  rallyToMcp (JObj [("FormattedID", JStr "US1"); ("_ref", JStr "/hr/1");
                    ("c_Risk", JNum 3)])
  = JObj (transformFieldNames
            [("FormattedID", JStr "US1"); ("_ref", JStr "/hr/1");
             ("c_Risk", JNum 3)]).
Proof.
  apply (proj2 (transformFieldNames_is_the_walk_without_descent
                  [("FormattedID", JStr "US1"); ("_ref", JStr "/hr/1");
                   ("c_Risk", JNum 3)])).
  reflexivity.
Defined.

(** *** Whole records, there and back *)






End RecordsSpec.

(* ================================================================== *)
(** ** Properties of the security manager *)
(* ================================================================== *)

Module SecuritySpec.
Import Js SecurityManager Shapes RecordsSpec.

(** *** What the sanitizer leaves *)

Lemma setProperty_Forall {V : Type} (P : string * V -> Prop) acc key value :
  Forall P acc -> P (key, value) -> Forall P (setProperty acc key value).
Proof.
  intros F H. unfold setProperty.
  destruct (key =? "__proto__")%string; [exact F|].
  induction F as [|[k v] rest Hkv Hrest IH]; simpl.
  - repeat constructor. exact H.
  - destruct (k =? key)%string eqn:E.
    + apply String.eqb_eq in E. subst k. constructor; assumption.
    + constructor; assumption.
Qed.

Lemma primitive_redacted v : isObjectLike v = false -> redacted v = true.
Proof. destruct v; simpl; congruence. Qed.

(** X17.  In what [sanitizeLogData] returns, every property whose key
    contains, whatever its case, one of the sensitive words holds the
    text [[REDACTED]], in every object at every depth, inside arrays as
    well. *)
Theorem sanitizeLogData_redacts_sensitive_keys :
  forall data, redacted (sanitizeLogData data) = true.
Proof.
  intros data.
  induction data as [| |n|s|b|items IH|entries IH] using record_ind;
    try reflexivity.
  - cbn [sanitizeLogData redacted]. rewrite forallb_forall.
    intros x Hx. apply in_map_iff in Hx. destruct Hx as (y & <- & Hy).
    rewrite Forall_forall in IH. apply (IH y Hy).
  - cbn [sanitizeLogData redacted]. rewrite forallb_forall.
    apply Forall_forall.
    set (P := fun kv : string * JsValue =>
                (if isSensitive (fst kv) then isRedactionMark (snd kv)
                 else true) && redacted (snd kv) = true).
    assert (G : forall l acc,
              Forall (fun kv => redacted (sanitizeLogData (snd kv)) = true) l ->
              Forall P acc ->
              Forall P
                (fold_left
                   (fun sanitized kv =>
                      if existsb (fun field =>
                                    includes field (toLowerCase (fst kv)))
                                 sensitiveFields
                      then setProperty sanitized (fst kv) (JStr "[REDACTED]")
                      else if isObjectLike (snd kv)
                      then setProperty sanitized (fst kv)
                             (sanitizeLogData (snd kv))
                      else setProperty sanitized (fst kv) (snd kv))
                   l acc)).
    { induction l as [|[k v] l IHl]; intros acc Hl Hacc;
        cbn [fold_left fst snd]; [exact Hacc|].
      inversion Hl as [|? ? Hv Hl']; subst. cbn [snd] in Hv.
      apply IHl; [exact Hl'|].
      change (existsb (fun field => includes field (toLowerCase k))
                sensitiveFields) with (isSensitive k).
      destruct (isSensitive k) eqn:S.
      - apply setProperty_Forall; [exact Hacc|].
        unfold P. cbn [fst snd]. rewrite S. reflexivity.
      - destruct (isObjectLike v) eqn:O;
          (apply setProperty_Forall; [exact Hacc|]);
          unfold P; cbn [fst snd]; rewrite S; cbn [andb].
        + exact Hv.
        + apply primitive_redacted. exact O. }
    apply G; [exact IH | constructor].
Qed.

(** *** Sanitizing twice *)

Lemma assignEntry_keys {V : Type} key (value : V) entries k :
  In k (map fst (assignEntry key value entries))
  <-> k = key \/ In k (map fst entries).
Proof.
  induction entries as [|[k0 v] rest IH]; simpl.
  - intuition congruence.
  - destruct (k0 =? key)%string eqn:E; simpl.
    + apply String.eqb_eq in E. subst k0. intuition congruence.
    + rewrite IH. intuition congruence.
Qed.

Lemma assignEntry_NoDup {V : Type} key (value : V) entries :
  NoDup (map fst entries) -> NoDup (map fst (assignEntry key value entries)).
Proof.
  induction entries as [|[k0 v] rest IH]; simpl; intros H.
  - constructor; [simpl; tauto | constructor].
  - inversion H as [|? ? Hin Hrest]; subst.
    destruct (k0 =? key)%string eqn:E; simpl.
    + constructor; assumption.
    + constructor; [|auto].
      rewrite assignEntry_keys. intros [->|Q]; [|contradiction].
      rewrite String.eqb_refl in E. discriminate.
Qed.

Lemma built_object {A V : Type} (name : A -> string) (val : A -> V)
    (P : string * V -> Prop) :
  forall l,
    (forall a, In a l -> P (name a, val a)) ->
    forall acc,
      NoDup (map fst acc) ->
      Forall (fun kv => fst kv <> "__proto__") acc ->
      Forall P acc ->
      NoDup (map fst (fold_left (fun t a => setProperty t (name a) (val a))
                        l acc))
      /\ Forall (fun kv => fst kv <> "__proto__")
           (fold_left (fun t a => setProperty t (name a) (val a)) l acc)
      /\ Forall P
           (fold_left (fun t a => setProperty t (name a) (val a)) l acc).
Proof.
  induction l as [|a l IH]; intros Hl acc D N F; simpl; [auto|].
  apply IH.
  - intros a' Hin. apply Hl. simpl. auto.
  - unfold setProperty. destruct (name a =? "__proto__")%string; [exact D|].
    apply assignEntry_NoDup. exact D.
  - unfold setProperty.
    destruct (name a =? "__proto__")%string eqn:E; [exact N|].
    apply String.eqb_neq in E.
    assert (Q : Forall (fun kv : string * V => fst kv <> "__proto__")
                  (setProperty acc (name a) (val a))).
    { apply setProperty_Forall; [exact N | exact E]. }
    unfold setProperty in Q.
    destruct (name a =? "__proto__")%string eqn:E';
      [apply String.eqb_eq in E'; contradiction | exact Q].
  - apply setProperty_Forall; [exact F|]. apply Hl. simpl. auto.
Qed.

Lemma sanitizeLogData_kind v :
  isObjectLike (sanitizeLogData v) = isObjectLike v.
Proof. destruct v; reflexivity. Qed.

(** X18.  Sanitizing what has been sanitized changes nothing. *)
Theorem sanitizeLogData_is_idempotent :
  forall data, sanitizeLogData (sanitizeLogData data) = sanitizeLogData data.
Proof.
  intros data.
  induction data as [| |n|s|b|items IH|entries IH] using record_ind;
    try reflexivity.
  - cbn [sanitizeLogData]. f_equal. rewrite map_map.
    apply map_ext_in. intros x Hx.
    rewrite Forall_forall in IH. apply (IH x Hx).
  - set (val := fun kv : string * JsValue =>
                  if isSensitive (fst kv) then JStr "[REDACTED]"
                  else if isObjectLike (snd kv)
                  then sanitizeLogData (snd kv) else snd kv).
    assert (S : forall l,
              sanitizeLogData (JObj l)
              = JObj (fold_left (fun t kv => setProperty t (fst kv) (val kv))
                        l [])).
    { intros l. cbn [sanitizeLogData]. f_equal.
      apply fold_left_agree. intros acc [k v] _. unfold val, isSensitive.
      cbn [fst snd].
      destruct (existsb (fun field => includes field (toLowerCase k))
                  sensitiveFields); [reflexivity|].
      destruct (isObjectLike v); reflexivity. }
    rewrite (S entries).
    destruct (built_object fst val (fun kv => val kv = snd kv) entries)
      with (acc := @nil (string * JsValue)) as (D & N & F).
    { intros [k v] Hin. unfold val. cbn [fst snd].
      destruct (isSensitive k); [reflexivity|].
      destruct (isObjectLike v) eqn:O.
      - rewrite sanitizeLogData_kind, O.
        rewrite Forall_forall in IH. apply (IH _ Hin).
      - rewrite O. reflexivity. }
    { constructor. }
    { constructor. }
    { constructor. }
    set (L := fold_left (fun t kv => setProperty t (fst kv) (val kv))
                entries []) in *.
    rewrite (S L). f_equal.
    rewrite (fold_setProperty_fresh fst val L []).
    + cbn [app]. rewrite <- (map_id L) at 2.
      apply map_ext_in. intros [k v] Hin.
      rewrite Forall_forall in F. specialize (F _ Hin). cbn [fst snd] in *.
      rewrite F. reflexivity.
    + exact D.
    + exact N.
Qed.

(** *** The headers of a request, once logged *)

(** X19.  When [validateApiKey] accepts, the key it has checked (the one
    provided if it is not empty, else the one of the environment) has at
    least ten characters, all among letters, digits, underscore and
    dash; [getAuthHeaders] then returns six headers with that key under
    [zsessionid]; and [sanitizeLogData] turns them into the same headers
    with the key replaced by [[REDACTED]], the five others as they
    were. *)
Theorem accepted_key_is_sent_and_hidden_in_logs :
  forall this providedApiKey,
    validateApiKey this providedApiKey = Ok true ->
    exists key,
      truthy (orKey providedApiKey (apiKey this)) = Some key
      /\ 10 <= String.length key
      /\ keyCharacters key = true
      /\ getAuthHeaders this providedApiKey
         = Ok [ ("zsessionid", key);
                ("X-RallyIntegrationName", "mcp-rally");
                ("X-RallyIntegrationVendor", integrationVendor this);
                ("X-RallyIntegrationVersion", integrationVersion this);
                ("Content-Type", "application/json");
                ("Accept", "application/json") ]
      /\ sanitizeLogData
           (headersRecord
              [ ("zsessionid", key);
                ("X-RallyIntegrationName", "mcp-rally");
                ("X-RallyIntegrationVendor", integrationVendor this);
                ("X-RallyIntegrationVersion", integrationVersion this);
                ("Content-Type", "application/json");
                ("Accept", "application/json") ])
         = headersRecord
             [ ("zsessionid", "[REDACTED]");
               ("X-RallyIntegrationName", "mcp-rally");
               ("X-RallyIntegrationVendor", integrationVendor this);
               ("X-RallyIntegrationVersion", integrationVersion this);
               ("Content-Type", "application/json");
               ("Accept", "application/json") ].
Proof.
  intros this providedApiKey H. unfold validateApiKey in H.
  destruct (truthy (orKey providedApiKey (apiKey this))) as [key|] eqn:T;
    [|discriminate].
  destruct (String.length key <? 10)%nat eqn:L; [discriminate|].
  destruct (apiKeyPattern key) eqn:K; [|discriminate].
  exists key. split; [reflexivity|].
  split; [apply Nat.ltb_ge; exact L|].
  split.
  { unfold apiKeyPattern in K. destruct key; [discriminate | exact K]. }
  split.
  { unfold getAuthHeaders. rewrite T. reflexivity. }
  reflexivity.
Qed.

Lemma accepted_key_is_sent_and_hidden_in_logs_witness :
  exists key,
    truthy (orKey (Some "")
              (apiKey (construct (fun name =>
                 if (name =? "RALLY_API_KEY")%string
                 then Some "_abc-DEF_0123456789" else None))))
    = Some key
    /\ 10 <= String.length key
    /\ keyCharacters key = true
    /\ getAuthHeaders
         (construct (fun name =>
            if (name =? "RALLY_API_KEY")%string
            then Some "_abc-DEF_0123456789" else None))
         (Some "")
       = Ok [ ("zsessionid", key);
              ("X-RallyIntegrationName", "mcp-rally");
              ("X-RallyIntegrationVendor", "AI-Assistant");
              ("X-RallyIntegrationVersion", "1.0.0");
              ("Content-Type", "application/json");
              ("Accept", "application/json") ]
    /\ sanitizeLogData
         (headersRecord
            [ ("zsessionid", key);
              ("X-RallyIntegrationName", "mcp-rally");
              ("X-RallyIntegrationVendor", "AI-Assistant");
              ("X-RallyIntegrationVersion", "1.0.0");
              ("Content-Type", "application/json");
              ("Accept", "application/json") ])
       = headersRecord
           [ ("zsessionid", "[REDACTED]");
             ("X-RallyIntegrationName", "mcp-rally");
             ("X-RallyIntegrationVendor", "AI-Assistant");
             ("X-RallyIntegrationVersion", "1.0.0");
             ("Content-Type", "application/json");
             ("Accept", "application/json") ].
Proof.
  apply (accepted_key_is_sent_and_hidden_in_logs
           (construct (fun name =>
              if (name =? "RALLY_API_KEY")%string
              then Some "_abc-DEF_0123456789" else None))
           (Some "")).
  reflexivity.
Defined.

End SecuritySpec.

(* ================================================================== *)
(** ** Properties of the client's tables and query parameters *)
(* ================================================================== *)

Module ClientSpec.
Import Js DataTransformer SecurityManager RallyClient Queries.

(** *** Artifact types *)

Lemma ownEntry_found key table text :
  ownEntry key table = Some text -> In (key, text) table.
Proof.
  induction table as [|[k v] rest IH]; simpl; [discriminate|].
  destruct (k =? key)%string eqn:E.
  - apply String.eqb_eq in E. intros H. injection H as ->. subst. auto.
  - auto.
Qed.

Lemma ownEntry_known key :
  In key knownArtifacts ->
  exists endpoint rallyType,
    ownEntry key artifactEndpoints = Some endpoint
    /\ ownEntry key artifactTypeMapping = Some rallyType
    /\ endpoint = "/" ++ toLowerCase rallyType
    /\ ownEntry rallyType artifactTypeMapping = Some rallyType.
Proof.
  intros H. simpl in H.
  repeat (destruct H as [H|H];
          [subst key; do 2 eexists; repeat split; vm_compute; reflexivity|]).
  destruct H.
Qed.

Lemma ownEntry_unknown key :
  ~ In key knownArtifacts ->
  ownEntry key artifactEndpoints = None
  /\ ownEntry key artifactTypeMapping = None.
Proof.
  intros H. split.
  - destruct (ownEntry key artifactEndpoints) as [text|] eqn:E;
      [|reflexivity].
    apply ownEntry_found in E. exfalso. apply H. simpl in E |- *.
    repeat (destruct E as [E|E]; [injection E as <- _; tauto|]).
    destruct E.
  - destruct (ownEntry key artifactTypeMapping) as [text|] eqn:E;
      [|reflexivity].
    apply ownEntry_found in E. exfalso. apply H. simpl in E |- *.
    repeat (destruct E as [E|E]; [injection E as <- _; tauto|]).
    destruct E.
Qed.

(** X20.  For each of the eight artifact types the client knows, the
    endpoint is the Rally type name in lower case behind a slash, and
    the Rally type name is a known type that stands for itself
    ([UserStory] standing for [HierarchicalRequirement]).  For any other
    name that is not a member every object inherits,
    [getEndpointForArtifact] throws, naming the type, while
    [getRallyArtifactType] returns the name as it is. *)
Theorem endpoints_follow_the_rally_type_names :
  forall artifactType,
    (In artifactType knownArtifacts ->
     exists rallyType,
       getRallyArtifactType artifactType = OwnText rallyType
       /\ getRallyArtifactType rallyType = OwnText rallyType
       /\ getEndpointForArtifact artifactType
          = Ok (OwnText ("/" ++ toLowerCase rallyType)))
    /\ (~ In artifactType knownArtifacts ->
        inheritedMember artifactType = None ->
        getEndpointForArtifact artifactType
        = Failed ("Unknown artifact type: " ++ artifactType)
        /\ getRallyArtifactType artifactType = OwnText artifactType).
Proof.
  intros artifactType. split.
  - intros K.
    destruct (ownEntry_known artifactType K)
      as (endpoint & rallyType & E & T & -> & S).
    exists rallyType.
    assert (N : forall text, ownEntry artifactType artifactTypeMapping
                             = Some text -> (text =? "")%string = false).
    { intros text Q. apply ownEntry_found in Q. simpl in Q.
      repeat (destruct Q as [Q|Q]; [injection Q as _ <-; reflexivity|]).
      destruct Q. }
    unfold getRallyArtifactType, getEndpointForArtifact, member.
    rewrite T, S, E. cbn [isTruthy]. rewrite (N _ T). cbn [negb].
    repeat split; reflexivity.
  - intros U I. destruct (ownEntry_unknown artifactType U) as [E T].
    unfold getRallyArtifactType, getEndpointForArtifact, member.
    rewrite E, T, I. split; reflexivity.
Qed.

Lemma endpoints_follow_the_rally_type_names_witness :
  (exists rallyType,
      getRallyArtifactType "UserStory" = OwnText rallyType
      /\ getRallyArtifactType rallyType = OwnText rallyType
      /\ getEndpointForArtifact "UserStory"
         = Ok (OwnText ("/" ++ toLowerCase rallyType)))
  /\ getEndpointForArtifact "Epic" = Failed "Unknown artifact type: Epic"
  /\ getRallyArtifactType "Epic" = OwnText "Epic".
Proof.
  split.
  - apply (proj1 (endpoints_follow_the_rally_type_names "UserStory")).
    simpl. tauto.
  - apply (proj2 (endpoints_follow_the_rally_type_names "Epic")).
    + simpl. intuition discriminate.
    + reflexivity.
Defined.

(** *** Query parameters *)

Lemma truthy_nonempty s text : truthy s = Some text -> text <> "".
Proof.
  unfold truthy. destruct s as [t|]; [|discriminate].
  destruct (t =? "")%string eqn:E; [discriminate|].
  intros H. injection H as <-. apply String.eqb_neq. exact E.
Qed.

Lemma numberToString_nonempty n : numberToString n <> "".
Proof.
  intros E. pose proof (HandlerSpec.readNumber_numberToString n) as R.
  rewrite E in R. vm_compute in R. injection R as <-.
  vm_compute in E. discriminate.
Qed.

Ltac name_the_numbers :=
  repeat match goal with
         | |- context [numberToString ?x] =>
             let s := fresh "text" in
             let E := fresh "E" in
             remember (numberToString x) as s eqn:E
         end.

(** X21.  Whatever the query, the parameters [buildQueryParams] builds
    always carry a page size and the fields to fetch: the page size is
    the one asked for, cut down to 200 (it is not raised when zero or
    negative), and 20 when none is asked for.  No parameter has an empty
    value, and none is given twice.  The page size and the start index
    are integers the host language holds exactly. *)
Theorem query_parameters_are_complete_and_capped :
  forall query,
    safeNumbers query = true ->
    ownEntry "pagesize" (buildQueryParams query)
    = Some (numberToString
              match q_pagesize query with
              | Some pagesize => Z.min pagesize 200
              | None => 20
              end)
    /\ ownEntry "fetch" (buildQueryParams query) <> None
    /\ Forall (fun kv => snd kv <> "") (buildQueryParams query)
    /\ NoDup (map fst (buildQueryParams query)).
Proof.
  intros [qq qf qo qs qp qw qj] _. unfold buildQueryParams.
  cbn [q_query q_fetch q_order q_start q_pagesize q_workspace q_project].
  destruct (truthy qq) as [tq|] eqn:Eq;
    [pose proof (truthy_nonempty _ _ Eq)|];
  (destruct (truthy qf) as [tf|] eqn:Ef;
    [pose proof (truthy_nonempty _ _ Ef)|]);
  (destruct (truthy qo) as [to|] eqn:Eo;
    [pose proof (truthy_nonempty _ _ Eo)|]);
  (destruct qs as [s|]; [pose proof (numberToString_nonempty s)|]);
  (destruct qp as [p|];
    [pose proof (numberToString_nonempty (Z.min p 200))|]);
  (destruct (truthy qw) as [tw|] eqn:Ew;
    [pose proof (truthy_nonempty _ _ Ew)|]);
  (destruct (truthy qj) as [tj|] eqn:Ej;
    [pose proof (truthy_nonempty _ _ Ej)|]);
  change (numberToString 20) with "20";
  name_the_numbers;
  (split; [reflexivity|]);
  (split; [cbv; discriminate|]);
  (split; [cbv; repeat constructor; (assumption || discriminate)|]);
  cbv; repeat constructor; cbv; intuition discriminate.
Qed.

Lemma query_parameters_are_complete_and_capped_witness :
  ownEntry "pagesize"
    (buildQueryParams
       (mkRallyQuery (Some "(Name contains x)") (Some "") None (Some 0%Z)
          (Some 500%Z) None None))
  = Some (numberToString (Z.min 500 200))
  /\ ownEntry "fetch"
       (buildQueryParams
          (mkRallyQuery (Some "(Name contains x)") (Some "") None (Some 0%Z)
             (Some 500%Z) None None)) <> None
  /\ Forall (fun kv => snd kv <> "")
       (buildQueryParams
          (mkRallyQuery (Some "(Name contains x)") (Some "") None (Some 0%Z)
             (Some 500%Z) None None))
  /\ NoDup (map fst
       (buildQueryParams
          (mkRallyQuery (Some "(Name contains x)") (Some "") None (Some 0%Z)
             (Some 500%Z) None None))).
Proof.
  apply (query_parameters_are_complete_and_capped
           (mkRallyQuery (Some "(Name contains x)") (Some "") None (Some 0%Z)
              (Some 500%Z) None None)).
  reflexivity.
Defined.

End ClientSpec.
